(** * The Entra directory client of [main.py], embedded and verified

    The development follows [main.py] top-down the way the module is
    written: Python strings and values first, then the process state and
    the effects of the client (token cache, HTTP GET, exceptions, the
    [while] loop of the pagination collector), then the methods of
    [EntraClient] and the four tool callables.

    Modelling boundary.
    - A Python [str] is a [string] whose characters are the code points
      0..255; the whitespace of [str.split()] and [str.strip()] is the
      Unicode whitespace of that range.
    - A decoded JSON value ([Any]) is a [pyval]; floats are left out.
    - An exception is an instance of [Exception] (what [except Exception]
      catches); it carries its class name and its [str()].
    - The credential provider, the HTTP stack, [os.environ], [json.dumps]
      and two built-ins on values the client never builds itself are the
      fields of the class [Runtime].
    - The [while] loop of [_collect_paged] runs on fuel; [Diverge] is the
      outcome of a run whose fuel ran out. *)

From Stdlib Require Import ZArith List String Ascii Bool Lia.
Import ListNotations.
Local Open Scope string_scope.

(* ================================================================== *)
(** ** Python strings *)

(** [ch.isspace()] for a code point below 256: TAB..CR, FS..US, SPACE,
    NEL (0x85) and NBSP (0xA0). *)
Definition is_space (c : ascii) : bool :=
  let n := nat_of_ascii c in
  ((9 <=? n) && (n <=? 13) || (28 <=? n) && (n <=? 31) || (n =? 32)
   || (n =? 133) || (n =? 160))%nat.

(** The double quote and the backslash, by code point. *)
Definition dquote : ascii := ascii_of_nat 34.
Definition backslash : ascii := ascii_of_nat 92.

(** [bool(s)] of a string: non-empty. *)
Definition str_truthy (s : string) : bool :=
  match s with EmptyString => false | String _ _ => true end.

Fixpoint lstrip (s : string) : string :=
  match s with
  | EmptyString => EmptyString
  | String c s' => if is_space c then lstrip s' else s
  end.

Fixpoint rstrip (s : string) : string :=
  match s with
  | EmptyString => EmptyString
  | String c s' =>
      let r := rstrip s' in
      if is_space c && negb (str_truthy r) then EmptyString else String c r
  end.

(** [s.strip()] *)
Definition strip (s : string) : string := rstrip (lstrip s).

(** [s.split()]: scan left to right, [tok] is the token being read (empty
    while whitespace is skipped). *)
Fixpoint split_from (tok : string) (s : string) : list string :=
  match s with
  | EmptyString => if str_truthy tok then [tok] else []
  | String c s' =>
      if is_space c
      then (if str_truthy tok then tok :: split_from EmptyString s'
            else split_from EmptyString s')
      else split_from (tok ++ String c EmptyString) s'
  end.

Definition split (s : string) : list string := split_from EmptyString s.

(** [s.replace(old, new)] for a one-character [old]. *)
Fixpoint replace (old : ascii) (new : string) (s : string) : string :=
  match s with
  | EmptyString => EmptyString
  | String c s' =>
      if Ascii.eqb c old then new ++ replace old new s'
      else String c (replace old new s')
  end.

(** [sep.join(parts)] *)
Fixpoint join (sep : string) (parts : list string) : string :=
  match parts with
  | [] => EmptyString
  | [p] => p
  | p :: ps => p ++ sep ++ join sep ps
  end.

(** [list(s)] of a string: its one-character strings. *)
Fixpoint chars (s : string) : list string :=
  match s with
  | EmptyString => []
  | String c s' => String c EmptyString :: chars s'
  end.

(* ================================================================== *)
(** ** Python values and exceptions *)

(** A decoded JSON value; a [dict] keeps its insertion order. *)
#[local] Set Warnings "-register-all".
Inductive pyval : Type :=
| PNone
| PBool (b : bool)
| PInt (z : Z)
| PStr (s : string)
| PList (l : list pyval)
| PDict (d : list (string * pyval)).

Definition dict : Type := list (string * pyval).

Record exn : Type := Exception { exn_class : string; exn_str : string }.

Definition TypeError (msg : string) : exn := Exception "TypeError" msg.
Definition ValueError (msg : string) : exn := Exception "ValueError" msg.
Definition AttributeError (msg : string) : exn := Exception "AttributeError" msg.
Definition KeyError (msg : string) : exn := Exception "KeyError" msg.

Definition type_name (v : pyval) : string :=
  match v with
  | PNone => "NoneType"
  | PBool _ => "bool"
  | PInt _ => "int"
  | PStr _ => "str"
  | PList _ => "list"
  | PDict _ => "dict"
  end.

(** [bool(v)] *)
Definition truthy (v : pyval) : bool :=
  match v with
  | PNone => false
  | PBool b => b
  | PInt z => negb (Z.eqb z 0)
  | PStr s => str_truthy s
  | PList l => match l with [] => false | _ => true end
  | PDict d => match d with [] => false | _ => true end
  end.

(** [d.get(k, default)]: the default only when the key is absent. *)
Fixpoint dict_get {A : Type} (d : list (string * A)) (k : string) (default : A) : A :=
  match d with
  | [] => default
  | (k', v) :: d' => if String.eqb k' k then v else dict_get d' k default
  end.

(** [d[k] = v]: in place when the key is there, at the end otherwise. *)
Fixpoint dict_set {A : Type} (d : list (string * A)) (k : string) (v : A)
  : list (string * A) :=
  match d with
  | [] => [(k, v)]
  | (k', v') :: d' =>
      if String.eqb k' k then (k', v) :: d' else (k', v') :: dict_set d' k v
  end.

(** [d.update(other)] *)
Definition dict_update {A : Type} (d other : list (string * A)) : list (string * A) :=
  fold_left (fun acc kv => dict_set acc (fst kv) (snd kv)) other d.

(** [v.get(k, default)] on a value of unknown type. *)
Definition py_get (v : pyval) (k : string) (default : pyval) : exn + pyval :=
  match v with
  | PDict d => inr (dict_get d k default)
  | _ => inl (AttributeError ("'" ++ type_name v ++ "' object has no attribute 'get'"))
  end.

(** The items [list(v)] and [items.extend(v)] iterate over. *)
Definition py_iter (v : pyval) : exn + list pyval :=
  match v with
  | PList l => inr l
  | PStr s => inr (map PStr (chars s))
  | PDict d => inr (map (fun kv => PStr (fst kv)) d)
  | _ => inl (TypeError ("'" ++ type_name v ++ "' object is not iterable"))
  end.

(** [len(v)] *)
Definition py_len (v : pyval) : exn + Z :=
  match v with
  | PList l => inr (Z.of_nat (List.length l))
  | PStr s => inr (Z.of_nat (String.length s))
  | PDict d => inr (Z.of_nat (List.length d))
  | _ => inl (TypeError ("object of type '" ++ type_name v ++ "' has no len()"))
  end.

(** [v[0]] of a truthy value. *)
Definition py_getitem0 (v : pyval) : exn + pyval :=
  match v with
  | PList (x :: _) => inr x
  | PList [] => inl (Exception "IndexError" "list index out of range")
  | PStr (String c _) => inr (PStr (String c EmptyString))
  | PStr EmptyString => inl (Exception "IndexError" "string index out of range")
  | PDict _ => inl (KeyError "0")
  | _ => inl (TypeError ("'" ++ type_name v ++ "' object is not subscriptable"))
  end.

(** [items[:n]] *)
Definition slice_to {A : Type} (n : Z) (items : list A) : list A :=
  if (0 <=? n)%Z then firstn (Z.to_nat n) items
  else firstn (Z.to_nat (Z.of_nat (List.length items) + n)) items.

(* ================================================================== *)
(** ** Outcomes and the effect monad *)

(** What a call does: return, raise, or (fuel exhausted) not come back. *)
Inductive outcome (A : Type) : Type :=
| Return (a : A)
| Raise (e : exn)
| Diverge.
Arguments Return {A} a.
Arguments Raise {A} e.
Arguments Diverge {A}.

(** A computation over a state [S]. *)
Definition M (S A : Type) : Type := S -> outcome A * S.

Definition ret {S A : Type} (a : A) : M S A := fun st => (Return a, st).

Definition raise {S A : Type} (e : exn) : M S A := fun st => (Raise e, st).

Definition diverge {S A : Type} : M S A := fun st => (Diverge, st).

Definition bind {S A B : Type} (m : M S A) (k : A -> M S B) : M S B :=
  fun st =>
    match m st with
    | (Return a, st') => k a st'
    | (Raise e, st') => (Raise e, st')
    | (Diverge, st') => (Diverge, st')
    end.

(** [try: body / except Exception as e: handler(e)] *)
Definition try_except {S A : Type} (body : M S A) (handler : exn -> M S A) : M S A :=
  fun st =>
    match body st with
    | (Raise e, st') => handler e st'
    | r => r
    end.

(** A built-in that returns or raises without touching the state. *)
Definition lift {S A : Type} (r : exn + A) : M S A :=
  match r with inl e => raise e | inr a => ret a end.

Declare Scope py_scope.
Delimit Scope py_scope with py.
Notation "x <- m ;; k" := (bind m (fun x => k))
  (at level 61, m at next level, right associativity) : py_scope.
Notation "m ;;; k" := (bind m (fun _ => k))
  (at level 61, right associativity) : py_scope.
Local Open Scope py_scope.

(* ================================================================== *)
(** ** The collaborators and the state *)

(** What [main.py] takes from outside: the process environment, the
    Azure credential, the HTTP stack and three library functions. *)
Class Runtime : Type := {
  (** the world outside the process: remote service, identity provider *)
  World : Type;
  (** [azure.identity.ClientSecretCredential] *)
  Credential : Type;
  (** [os.getenv(name)] *)
  os_getenv : World -> string -> option string;
  (** [ClientSecretCredential(tenant_id=, client_id=, client_secret=)] *)
  ClientSecretCredential : string -> string -> string -> exn + Credential;
  (** [credential.get_token(scope).token] *)
  credential_get_token : Credential -> string -> World -> (exn + string) * World;
  (** [httpx.AsyncClient().get(url, headers=, params=)], then
      [raise_for_status()] and [json()] *)
  httpx_get : pyval -> list (string * string) -> option dict -> World
              -> (exn + dict) * World;
  (** [json.dumps(v, indent=2)] *)
  json_dumps : pyval -> string;
  (** [str(v)] of a value that is not a string, inside an f-string *)
  py_str : pyval -> string;
  (** [int(s)] of a string *)
  int_of_str : string -> exn + Z
}.

Section Client.
Context {R : Runtime}.

(** The two remote calls, as the trace records them. *)
Inductive event : Type :=
| EvToken (scope : string) (r : exn + string)
| EvGet (url : pyval) (headers : list (string * string)) (params : option dict)
        (r : exn + dict).

(** The attributes of an [EntraClient]. *)
Record EntraClient : Type := {
  tenant_id : string;
  client_id : string;
  client_secret : string;
  credential : Credential;
  base_url : string;
  _token : option string
}.

(** The state a method runs in: the object, the world, and the calls made
    so far (ghost). *)
Record mstate : Type := {
  self : EntraClient;
  world : World;
  trace : list event
}.

(** The state a tool runs in: the module global [entra_client]. *)
Record proc : Type := {
  entra_client : option EntraClient;
  p_world : World;
  p_trace : list event
}.

Definition set_token (c : EntraClient) (t : string) : EntraClient :=
  {| tenant_id := tenant_id c; client_id := client_id c;
     client_secret := client_secret c; credential := credential c;
     base_url := base_url c; _token := Some t |}.

(** [bool(self._token)] *)
Definition token_truthy (t : option string) : bool :=
  match t with Some s => str_truthy s | None => false end.

(** [value or default] *)
Definition py_or (v default : pyval) : pyval := if truthy v then v else default.

(** [f"{v}"] *)
Definition format_value (v : pyval) : string :=
  match v with PStr s => s | _ => py_str v end.

(** [int(v)] *)
Definition py_int (v : pyval) : exn + Z :=
  match v with
  | PInt z => inr z
  | PBool b => inr (if b then 1 else 0)%Z
  | PStr s => int_of_str s
  | _ => inl (TypeError ("int() argument must be a string, a bytes-like object or a real number, not '" ++ type_name v ++ "'"))
  end.

(** *** Primitive effects: each remote call is appended to the trace *)

Definition call_get_token (scope : string) : M mstate string :=
  fun st =>
    let '(r, w) := credential_get_token (credential (self st)) scope (world st) in
    let st' := {| self := self st; world := w;
                  trace := trace st ++ [EvToken scope r] |} in
    match r with inl e => (Raise e, st') | inr t => (Return t, st') end.

Definition call_httpx_get (url : pyval) (headers : list (string * string))
    (params : option dict) : M mstate dict :=
  fun st =>
    let '(r, w) := httpx_get url headers params (world st) in
    let st' := {| self := self st; world := w;
                  trace := trace st ++ [EvGet url headers params r] |} in
    match r with inl e => (Raise e, st') | inr d => (Return d, st') end.

Definition read_token : M mstate (option string) :=
  fun st => (Return (_token (self st)), st).

Definition write_token (t : string) : M mstate unit :=
  fun st => (Return tt, {| self := set_token (self st) t; world := world st;
                           trace := trace st |}).

Definition read_base_url : M mstate string :=
  fun st => (Return (base_url (self st)), st).

(* ================================================================== *)
(** ** [class EntraClient] *)

(** [EntraClient._get_token] *)
Definition _get_token : M mstate string :=
  cached <- read_token ;;
  if negb (token_truthy cached)
  then (t <- call_get_token "https://graph.microsoft.com/.default" ;;
        write_token t ;;;
        ret t)
  else ret (match cached with Some t => t | None => EmptyString end).

(** [EntraClient._make_request] *)
Definition _make_request (endpoint : string) (params : option dict)
    (extra_headers : option (list (string * string))) : M mstate dict :=
  token <- _get_token ;;
  let headers := [("Authorization", "Bearer " ++ token);
                  ("Content-Type", "application/json")] in
  let headers :=
    match extra_headers with
    | Some (kv :: more) => dict_update headers (kv :: more)
    | _ => headers
    end in
  base <- read_base_url ;;
  let url := base ++ endpoint in
  call_httpx_get (PStr url) headers params.

(** [EntraClient._get_next_link] *)
Definition _get_next_link (next_link_url : pyval) (headers : list (string * string))
  : M mstate dict :=
  call_httpx_get next_link_url headers None.

(** [item_limit is None or len(items) < item_limit] *)
Definition below_limit (item_limit : option Z) (items : list pyval) : bool :=
  match item_limit with
  | None => true
  | Some n => (Z.of_nat (List.length items) <? n)%Z
  end.

(** The [while] loop of [_collect_paged]; one unit of fuel per iteration. *)
Fixpoint collect_loop (fuel : nat) (extra_headers : list (string * string))
    (item_limit : option Z) (items : list pyval) (next_link : pyval)
  : M mstate (list pyval) :=
  if truthy next_link && below_limit item_limit items then
    match fuel with
    | O => diverge
    | S fuel' =>
        token <- _get_token ;;
        page <- _get_next_link next_link
                  (dict_set (dict_set extra_headers "Authorization" ("Bearer " ++ token))
                            "Content-Type" "application/json") ;;
        let page_items := dict_get page "value" (PList []) in
        more <- lift (py_iter page_items) ;;
        collect_loop fuel' extra_headers item_limit (items ++ more)
                     (dict_get page "@odata.nextLink" PNone)
    end
  else ret items.

(** [EntraClient._collect_paged] *)
Definition _collect_paged (fuel : nat) (endpoint : string) (params : dict)
    (extra_headers : list (string * string)) (item_limit : option Z)
  : M mstate dict :=
  first_page <- _make_request endpoint (Some params) (Some extra_headers) ;;
  items <- lift (py_iter (dict_get first_page "value" (PList []))) ;;
  let total_count := dict_get first_page "@odata.count" PNone in
  let next_link := dict_get first_page "@odata.nextLink" PNone in
  items <- collect_loop fuel extra_headers item_limit items next_link ;;
  let items :=
    match item_limit with
    | Some n => if (n <? Z.of_nat (List.length items))%Z then slice_to n items else items
    | None => items
    end in
  ret [("value", PList items); ("count", total_count)].

(** One quoted term of the search expression: the token between two
    double quotes, every double quote inside it preceded by a backslash
    (the f-string of the list comprehension). *)
Definition quote_term (t : string) : string :=
  String dquote (replace dquote (String backslash (String dquote EmptyString)) t
                 ++ String dquote EmptyString).

(** [EntraClient._build_and_search_query] *)
Definition _build_and_search_query (raw_query : string) : string :=
  let tokens := map strip (filter (fun t => str_truthy (strip t)) (split raw_query)) in
  match tokens with
  | [] => String dquote (strip raw_query ++ String dquote EmptyString)
  | _ =>
      let quoted := map quote_term tokens in
      join " AND " quoted
  end.

(** [query.replace("'", "''").strip()] *)
Definition sanitize (query : string) : string := strip (replace "'"%char "''" query).

Definition USER_SELECT : string :=
  "id,displayName,userPrincipalName,mail,jobTitle,department,officeLocation".
Definition GROUP_SELECT : string := "id,displayName,description,groupTypes,mail".

(** [EntraClient.search_users] *)
Definition search_users (fuel : nat) (query : string) (limit : Z) : M mstate dict :=
  let sanitized_query := sanitize query in
  let search_headers := [("ConsistencyLevel", "eventual")] in
  let search_params :=
    [("$search", PStr (_build_and_search_query sanitized_query));
     ("$count", PStr "true");
     ("$top", PInt limit);
     ("$select", PStr USER_SELECT)] in
  try_except
    (page <- _collect_paged fuel "/users" search_params search_headers (Some limit) ;;
     let users := dict_get page "value" (PList []) in
     n <- lift (py_len users) ;;
     let total_count := dict_get page "count" (PInt n) in
     ret [("users", users); ("total_count", total_count)])
    (fun _ =>
     let filter_params :=
       [("$filter", PStr ("startswith(displayName,'" ++ sanitized_query
                          ++ "') or startswith(mail,'" ++ sanitized_query
                          ++ "') or startswith(userPrincipalName,'" ++ sanitized_query
                          ++ "')"));
        ("$count", PStr "true");
        ("$top", PInt limit);
        ("$select", PStr USER_SELECT)] in
     page <- _collect_paged fuel "/users" filter_params search_headers (Some limit) ;;
     let users := dict_get page "value" (PList []) in
     n <- lift (py_len users) ;;
     let total_count := dict_get page "count" (PInt n) in
     ret [("users", users); ("total_count", total_count)]).

(** [EntraClient.search_groups] *)
Definition search_groups (fuel : nat) (query : string) (limit : Z) : M mstate dict :=
  let sanitized_query := sanitize query in
  let search_headers := [("ConsistencyLevel", "eventual")] in
  let search_params :=
    [("$search", PStr (_build_and_search_query sanitized_query));
     ("$count", PStr "true");
     ("$top", PInt limit);
     ("$select", PStr GROUP_SELECT)] in
  try_except
    (page <- _collect_paged fuel "/groups" search_params search_headers (Some limit) ;;
     let groups := dict_get page "value" (PList []) in
     n <- lift (py_len groups) ;;
     let total_count := dict_get page "count" (PInt n) in
     ret [("groups", groups); ("total_count", total_count)])
    (fun _ =>
     let filter_params :=
       [("$filter", PStr ("startswith(displayName,'" ++ sanitized_query
                          ++ "') or startswith(description,'" ++ sanitized_query
                          ++ "')"));
        ("$count", PStr "true");
        ("$top", PInt limit);
        ("$select", PStr GROUP_SELECT)] in
     page <- _collect_paged fuel "/groups" filter_params search_headers (Some limit) ;;
     let groups := dict_get page "value" (PList []) in
     n <- lift (py_len groups) ;;
     let total_count := dict_get page "count" (PInt n) in
     ret [("groups", groups); ("total_count", total_count)]).

(** [EntraClient._resolve_user_id]; the second [try] yields [Some v] when
    it reached its [return], [None] when control goes on to the last line. *)
Definition _resolve_user_id (identifier : string) : M mstate pyval :=
  try_except
    (_make_request ("/users/" ++ identifier) None None ;;;
     ret (PStr identifier))
    (fun _ =>
     returned <-
       try_except
         (let params := [("$filter", PStr ("mail eq '" ++ identifier ++ "'"));
                         ("$select", PStr "id")] in
          res <- _make_request "/users" (Some params) None ;;
          let users := dict_get res "value" (PList []) in
          if truthy users
          then (first <- lift (py_getitem0 users) ;;
                id <- lift (py_get first "id" PNone) ;;
                ret (Some id))
          else ret None)
         (fun _ => ret None) ;;
     match returned with
     | Some v => ret v
     | None => ret PNone
     end).

(** [EntraClient.get_user_membership] *)
Definition get_user_membership (fuel : nat) (user_identifier : string)
    (limit : option Z) : M mstate pyval :=
  resolved <- _resolve_user_id user_identifier ;;
  let user_id := py_or resolved (PStr user_identifier) in
  let endpoint := "/users/" ++ format_value user_id ++ "/memberOf" in
  let params := [("$select", PStr GROUP_SELECT);
                 ("$count", PStr "true");
                 ("$top", PInt 50)] in
  let headers := [("ConsistencyLevel", "eventual")] in
  page <- _collect_paged fuel endpoint params headers limit ;;
  ret (dict_get page "value" (PList [])).

(** [EntraClient.get_group_members] *)
Definition get_group_members (group_id : string) (limit : Z) : M mstate pyval :=
  let endpoint := "/groups/" ++ group_id ++ "/members" in
  let params := [("$top", PInt limit);
                 ("$select", PStr "id,displayName,userPrincipalName,mail,jobTitle,department")] in
  response <- _make_request endpoint (Some params) None ;;
  ret (dict_get response "value" (PList [])).

(* ================================================================== *)
(** ** Module level: the global client and the tools *)

(** [bool(os.getenv(name))] *)
Definition env_truthy (v : option string) : bool :=
  match v with Some s => str_truthy s | None => false end.

Definition env_str (v : option string) : string :=
  match v with Some s => s | None => EmptyString end.

(** [EntraClient.__init__] *)
Definition EntraClient_init (w : World) : exn + EntraClient :=
  let tenant := os_getenv w "ENTRA_TENANT_ID" in
  let client := os_getenv w "ENTRA_CLIENT_ID" in
  let secret := os_getenv w "ENTRA_CLIENT_SECRET" in
  if negb (env_truthy tenant && env_truthy client && env_truthy secret)
  then inl (ValueError "Missing required environment variables: ENTRA_TENANT_ID, ENTRA_CLIENT_ID, ENTRA_CLIENT_SECRET")
  else
    match ClientSecretCredential (env_str tenant) (env_str client) (env_str secret) with
    | inl e => inl e
    | inr cred =>
        inr {| tenant_id := env_str tenant; client_id := env_str client;
               client_secret := env_str secret; credential := cred;
               base_url := "https://graph.microsoft.com/v1.0"; _token := None |}
    end.

(** [get_entra_client] *)
Definition get_entra_client : M proc EntraClient :=
  fun p =>
    match entra_client p with
    | Some c => (Return c, p)
    | None =>
        match EntraClient_init (p_world p) with
        | inl e => (Raise e, p)
        | inr c => (Return c, {| entra_client := Some c; p_world := p_world p;
                                 p_trace := p_trace p |})
        end
    end.

(** A method call on the global client: the object the method mutates is
    the one the global names. *)
Definition on_client {A : Type} (c : EntraClient) (m : M mstate A) : M proc A :=
  fun p =>
    let '(r, st) := m {| self := c; world := p_world p; trace := p_trace p |} in
    (r, {| entra_client := Some (self st); p_world := world st;
           p_trace := trace st |}).

(** [search_entra_users] *)
Definition search_entra_users (fuel : nat) (query : string) (max_results : Z)
  : M proc string :=
  try_except
    (client <- get_entra_client ;;
     search_result <- on_client client (search_users fuel query max_results) ;;
     let users := dict_get search_result "users" (PList []) in
     n <- lift (py_len users) ;;
     let total_count := dict_get search_result "total_count" (PInt n) in
     total <- lift (py_int total_count) ;;
     let result := [("query", PStr query);
                    ("total_results", PInt total);
                    ("users", users)] in
     ret (json_dumps (PDict result)))
    (fun e => ret ("Error searching users: " ++ exn_str e)).

(** [search_entra_groups] *)
Definition search_entra_groups (fuel : nat) (query : string) (max_results : Z)
  : M proc string :=
  try_except
    (client <- get_entra_client ;;
     search_result <- on_client client (search_groups fuel query max_results) ;;
     let groups := dict_get search_result "groups" (PList []) in
     n <- lift (py_len groups) ;;
     let total_count := dict_get search_result "total_count" (PInt n) in
     total <- lift (py_int total_count) ;;
     let result := [("query", PStr query);
                    ("total_results", PInt total);
                    ("groups", groups)] in
     ret (json_dumps (PDict result)))
    (fun e => ret ("Error searching groups: " ++ exn_str e)).

(** [get_user_group_membership] *)
Definition get_user_group_membership (fuel : nat) (user_identifier : string)
  : M proc string :=
  try_except
    (client <- get_entra_client ;;
     membership <- on_client client (get_user_membership fuel user_identifier None) ;;
     n <- lift (py_len membership) ;;
     let result := [("user_identifier", PStr user_identifier);
                    ("total_groups", PInt n);
                    ("groups", membership)] in
     ret (json_dumps (PDict result)))
    (fun e => ret ("Error getting user membership: " ++ exn_str e)).

(** The tool [get_group_members] (the module-level function; the method of
    the same name is above). *)
Definition get_group_members_tool (group_identifier : string) (max_results : Z)
  : M proc string :=
  try_except
    (client <- get_entra_client ;;
     members <- on_client client (get_group_members group_identifier max_results) ;;
     n <- lift (py_len members) ;;
     let result := [("group_identifier", PStr group_identifier);
                    ("total_members", PInt n);
                    ("members", members)] in
     ret (json_dumps (PDict result)))
    (fun e => ret ("Error getting group members: " ++ exn_str e)).

End Client.

(* ================================================================== *)
(** ** Specification-side definitions *)

(** *** The search expression as section 4.1 words it *)

(** The input cut at every whitespace character (empty pieces kept). *)
Fixpoint fields (s : string) : list string :=
  match s with
  | EmptyString => [EmptyString]
  | String c s' =>
      if is_space c then EmptyString :: fields s'
      else match fields s' with
           | f :: fs => String c f :: fs
           | [] => [String c EmptyString]
           end
  end.

(** "Splits [raw] on whitespace, drops empty tokens." *)
Definition words (raw : string) : list string := filter str_truthy (fields raw).

(** "Internal double quotes escaped": a backslash before each of them. *)
Fixpoint escape_quotes (s : string) : string :=
  match s with
  | EmptyString => EmptyString
  | String c s' =>
      if Ascii.eqb c dquote then String backslash (String dquote (escape_quotes s'))
      else String c (escape_quotes s')
  end.

Definition in_quotes (s : string) : string :=
  String dquote EmptyString ++ s ++ String dquote EmptyString.

(** [buildSearchExpression] of section 4.1. *)
Definition buildSearchExpression (raw : string) : string :=
  match words raw with
  | [] => in_quotes (strip raw)
  | tokens => join " AND " (map (fun t => in_quotes (escape_quotes t)) tokens)
  end.

(** No whitespace character occurs in [s]. *)
Fixpoint no_space (s : string) : bool :=
  match s with
  | EmptyString => true
  | String c s' => negb (is_space c) && no_space s'
  end.

(** *** Pages and page sequences (sections 3 and 4.3) *)

(** The items of a page: what [list(page.get("value", []))] yields. *)
Definition page_value (d : dict) : exn + list pyval :=
  py_iter (dict_get d "value" (PList [])).

Definition iterable (d : dict) : bool :=
  match page_value d with inr _ => true | inl _ => false end.

Definition items_of (d : dict) : list pyval :=
  match page_value d with inr l => l | inl _ => [] end.

(** The continuation reference of a page; it exists when it is truthy. *)
Definition next_link (d : dict) : pyval := dict_get d "@odata.nextLink" PNone.

(** The total-count hint of a page ([None] when the service sent none). *)
Definition count_hint (d : dict) : pyval := dict_get d "@odata.count" PNone.

(** The continuation pages the collector asks for, as section 4.3 words
    the loop: the next page is fetched while the items held are fewer than
    the limit (or no limit is set). [have] is the number of items held. *)
Fixpoint pages_needed (limit : option Z) (have : nat) (rest : list dict) : list dict :=
  match rest with
  | [] => []
  | d :: ds =>
      let wanted := match limit with
                    | None => true
                    | Some n => (Z.of_nat have <? n)%Z
                    end in
      if wanted then d :: pages_needed limit (have + List.length (items_of d)) ds
      else []
  end.

(** "Truncate to exactly [itemLimit]" when a limit is set. *)
Definition truncate (limit : option Z) (items : list pyval) : list pyval :=
  match limit with
  | Some n => firstn (Z.to_nat n) items
  | None => items
  end.

(** *** Reading the trace *)

(** The headers of an authenticated request: the bearer token and the
    content type, then the caller's extra headers laid over them. *)
Definition sent_headers (token : string) (extra_headers : list (string * string))
  : list (string * string) :=
  dict_update [("Authorization", "Bearer " ++ token);
               ("Content-Type", "application/json")] extra_headers.

Definition ev_failure (ev : event) : option exn :=
  match ev with
  | EvToken _ (inl e) => Some e
  | EvGet _ _ _ (inl e) => Some e
  | _ => None
  end.

Definition is_get (ev : event) : bool :=
  match ev with EvGet _ _ _ _ => true | EvToken _ _ => false end.

(** The HTTP requests among the events, in order. *)
Definition gets (evs : list event) : list event := filter is_get evs.

Definition all_ok (evs : list event) : Prop :=
  Forall (fun ev => ev_failure ev = None) evs.

(** Some remote call among [evs] failed with [e]. *)
Definition fails_with (evs : list event) (e : exn) : Prop :=
  exists ev, In ev evs /\ ev_failure ev = Some e.

Section Chains.
Context {R : Runtime}.

(** [fetchNext] of section 4.2: the bearer token again, then the GET of
    the continuation reference (the body of the collector's loop). *)
Definition fetch_next (extra_headers : list (string * string)) (link : pyval)
  : M mstate dict :=
  token <- _get_token ;;
  _get_next_link link
    (dict_set (dict_set extra_headers "Authorization" ("Bearer " ++ token))
              "Content-Type" "application/json").

(** [follows hdrs link st pages link' st']: from state [st], following the
    continuation reference [link] page after page serves [pages] and leaves
    the reference [link'] and the state [st']. *)
Inductive follows (hdrs : list (string * string))
  : pyval -> mstate -> list dict -> pyval -> mstate -> Prop :=
| follows_nil (link : pyval) (st : mstate) : follows hdrs link st [] link st
| follows_cons (link : pyval) (st : mstate) (d : dict) (st1 : mstate)
    (ds : list dict) (link' : pyval) (st' : mstate) :
    truthy link = true ->
    fetch_next hdrs link st = (Return d, st1) ->
    follows hdrs (next_link d) st1 ds link' st' ->
    follows hdrs link st (d :: ds) link' st'.

(** A computation keeps the fetch discipline when the remote calls it adds
    to the trace are all successful, or all successful but the last one,
    whose exception is then the outcome. *)
Definition disciplined {A : Type} (m : M mstate A) : Prop :=
  forall st, exists evs,
    trace (snd (m st)) = (trace st ++ evs)%list /\
    (all_ok evs \/
     exists evs0 ev e,
       evs = (evs0 ++ [ev])%list /\ all_ok evs0 /\ ev_failure ev = Some e /\
       fst (m st) = Raise e).

End Chains.

(** *** Termination of a computation *)

(** [m] comes back (returns or raises) from every state. *)
Definition comes_back {S A : Type} (m : M S A) : Prop :=
  forall st, fst (m st) <> Diverge.

(** [m] returns a value from every state. *)
Definition returns {S A : Type} (m : M S A) : Prop :=
  forall st, exists a st', m st = (Return a, st').

(** *** The tool boundary (section 6) *)

Section Envelopes.
Context {R : Runtime}.




End Envelopes.

(** *** A scripted runtime, for running the client on concrete services *)

(** The key a scripted service answers by: the URL and, when the request
    has query parameters, the name of the first one. *)
Definition request_key (url : pyval) (params : option dict) : string :=
  match url with
  | PStr u =>
      match params with
      | Some ((k, _) :: _) => u ++ "?" ++ k
      | _ => u
      end
  | _ => EmptyString
  end.

Definition not_found : exn := Exception "HTTPStatusError" "404 Not Found".

(** A runtime whose service answers from a table (any other request is a
    404), whose credential always yields the token [tok], and whose world
    counts the requests made. *)
Definition scripted (table : list (string * (exn + dict))) : Runtime :=
  {| World := nat;
     Credential := unit;
     os_getenv := fun _ name => Some ("value-of-" ++ name);
     ClientSecretCredential := fun _ _ _ => inr tt;
     credential_get_token := fun _ _ w => (inr "tok", w);
     httpx_get := fun url _ params w =>
                    (dict_get table (request_key url params) (inl not_found), S w);
     json_dumps := fun v => match v with
                            | PDict ((k, _) :: _) => "{" ++ k ++ ", ...}"
                            | _ => "..."
                            end;
     py_str := fun _ => "?";
     int_of_str := fun _ => inl (ValueError "invalid literal for int()") |}.

Definition GRAPH : string := "https://graph.microsoft.com/v1.0".

(** A fresh client of a scripted runtime, and the state before any call. *)
Definition fresh_client (table : list (string * (exn + dict)))
  : @EntraClient (scripted table) :=
  @Build_EntraClient (scripted table) "tenant" "client" "secret" tt GRAPH None.

Definition fresh_state (table : list (string * (exn + dict)))
  : @mstate (scripted table) :=
  @Build_mstate (scripted table) (fresh_client table) O [].

Definition fresh_proc (table : list (string * (exn + dict)))
  : @proc (scripted table) :=
  @Build_proc (scripted table) None O [].

Definition record (id : string) : pyval := PDict [("id", PStr id)].

(** Three pages of three users each, the first with a count hint. *)
Definition three_pages : list (string * (exn + dict)) :=
  [(GRAPH ++ "/users?$search",
    inr [("value", PList [record "a1"; record "a2"; record "a3"]);
         ("@odata.count", PInt 9);
         ("@odata.nextLink", PStr "page2")]);
   ("page2",
    inr [("value", PList [record "b1"; record "b2"; record "b3"]);
         ("@odata.nextLink", PStr "page3")]);
   ("page3",
    inr [("value", PList [record "c1"; record "c2"; record "c3"])])].

(** One page of two users, no continuation. *)
Definition one_page : list (string * (exn + dict)) :=
  [(GRAPH ++ "/users?$search",
    inr [("value", PList [record "a1"; record "a2"])])].

(** The [$search] request is refused; the [$filter] request is served one
    user and no count hint. *)
Definition search_refused : list (string * (exn + dict)) :=
  [(GRAPH ++ "/users?$search", inl (Exception "HTTPStatusError" "400 Bad Request"));
   (GRAPH ++ "/users?$filter", inr [("value", PList [record "a1"])]);
   (GRAPH ++ "/groups?$search", inl (Exception "HTTPStatusError" "400 Bad Request"));
   (GRAPH ++ "/groups?$filter", inr [("value", PList [record "g1"])])].

(** The second page fails. *)
Definition second_page_fails : list (string * (exn + dict)) :=
  [(GRAPH ++ "/users?$search",
    inr [("value", PList [record "a1"]); ("@odata.nextLink", PStr "page2")]);
   ("page2", inl (Exception "HTTPStatusError" "503 Service Unavailable"))].

(** [jane@co.com] is no path segment the service knows, but the mail of
    the user [id]; that user is a member of one group. *)
Definition jane_by_mail (id : string) : list (string * (exn + dict)) :=
  [(GRAPH ++ "/users?$filter", inr [("value", PList [record id])]);
   (GRAPH ++ "/users/" ++ id ++ "/memberOf?$select",
    inr [("value", PList [record "g1"])]);
   (GRAPH ++ "/users/jane@co.com/memberOf?$select",
    inr [("value", PList [record "g2"])])].

(** [jane@co.com] is a principal name the service knows directly. *)
Definition jane_direct : list (string * (exn + dict)) :=
  [(GRAPH ++ "/users/jane@co.com", inr [("id", PStr "u42")]);
   (GRAPH ++ "/users/jane@co.com/memberOf?$select",
    inr [("value", PList [record "g1"])])].

(** A group whose member list goes on after the first page. *)
Definition large_group : list (string * (exn + dict)) :=
  [(GRAPH ++ "/groups/g1/members?$top",
    inr [("value", PList [record "a1"; record "a2"]);
         ("@odata.nextLink", PStr "page2")]);
   ("page2", inr [("value", PList [record "a3"])])].

(** *** Readers of what the query builders write *)

(** The inverse of the escaping of a quoted term: a backslash that stands
    right before a double quote is dropped. *)
Fixpoint unescape_quotes (s : string) : string :=
  match s with
  | EmptyString => EmptyString
  | String c s' =>
      match s' with
      | String d _ =>
          if Ascii.eqb c backslash && Ascii.eqb d dquote then unescape_quotes s'
          else String c (unescape_quotes s')
      | EmptyString => String c EmptyString
      end
  end.

(** [s] without its last character, which must be a double quote. *)
Fixpoint drop_last_quote (s : string) : option string :=
  match s with
  | EmptyString => None
  | String c EmptyString => if Ascii.eqb c dquote then Some EmptyString else None
  | String c s' => option_map (String c) (drop_last_quote s')
  end.

(** Reading a quoted term back: the text between the first and the last
    double quote, unescaped. *)
Definition read_term (s : string) : option string :=
  match s with
  | String c rest =>
      if Ascii.eqb c dquote then option_map unescape_quotes (drop_last_quote rest)
      else None
  | EmptyString => None
  end.

(** Reading the inside of an OData string literal: a doubled single quote
    is one quote, a single quote on its own is the end of the literal (no
    reading). *)
Fixpoint undouble (s : string) : option string :=
  match s with
  | EmptyString => Some EmptyString
  | String c s' =>
      if Ascii.eqb c "'"%char
      then match s' with
           | String d s'' =>
               if Ascii.eqb d "'"%char
               then option_map (String "'"%char) (undouble s'')
               else None
           | EmptyString => None
           end
      else option_map (String c) (undouble s')
  end.

(** *** More scripted services and states *)

(** A service whose second page names itself as the next one. *)
Definition looping : list (string * (exn + dict)) :=
  [(GRAPH ++ "/users?$search",
    inr [("value", PList [record "a1"]); ("@odata.nextLink", PStr "again")]);
   ("again",
    inr [("value", PList [record "a2"]); ("@odata.nextLink", PStr "again")])].

(** A client of a scripted runtime that already holds the token [t]. *)
Definition holding (table : list (string * (exn + dict))) (t : string)
  : @mstate (scripted table) :=
  @Build_mstate (scripted table)
    (@Build_EntraClient (scripted table) "tenant" "client" "secret" tt GRAPH (Some t))
    O [].

Definition proc_holding (table : list (string * (exn + dict))) (t : string)
  : @proc (scripted table) :=
  @Build_proc (scripted table)
    (Some (@Build_EntraClient (scripted table) "tenant" "client" "secret" tt GRAPH
             (Some t)))
    O [].

(** *** Reuse of the cached token *)

(** [k in d] *)
Definition has_key {A : Type} (k : string) (d : list (string * A)) : bool :=
  existsb (fun kv => String.eqb (fst kv) k) d.

(** The event is an HTTP request that carries the bearer token [t]. *)
Definition bearer_get (t : string) (ev : event) : Prop :=
  match ev with
  | EvGet _ headers _ _ =>
      dict_get headers "Authorization" EmptyString = "Bearer " ++ t
  | EvToken _ _ => False
  end.

Section TokenReuse.
Context {R : Runtime}.

(** A method reuses the token the client holds: run on a client that
    holds a non-empty token, it leaves the client as it is, never calls
    the credential provider, and sends that token with every request. *)
Definition reuses (t : string) {A : Type} (m : M mstate A) : Prop :=
  forall st,
    _token (self st) = Some t ->
    self (snd (m st)) = self st /\
    exists evs,
      trace (snd (m st)) = (trace st ++ evs)%list /\ Forall (bearer_get t) evs.

Definition reuses_token {A : Type} (m : M mstate A) : Prop :=
  forall t, str_truthy t = true -> reuses t m.

(** The same for a tool, on the global client. *)
Definition tool_reuses_token (tool : M proc string) : Prop :=
  forall p c t,
    entra_client p = Some c -> _token c = Some t -> str_truthy t = true ->
    entra_client (snd (tool p)) = Some c /\
    exists evs,
      p_trace (snd (tool p)) = (p_trace p ++ evs)%list /\ Forall (bearer_get t) evs.

End TokenReuse.

(** *** A process whose configuration is incomplete *)

(** A runtime whose environment sets [ENTRA_CLIENT_SECRET] to the empty
    string (the two other variables are set) and whose service answers
    nothing. *)
Definition unconfigured : Runtime :=
  {| World := nat;
     Credential := unit;
     os_getenv := fun _ name =>
                    if String.eqb name "ENTRA_CLIENT_SECRET" then Some EmptyString
                    else Some ("value-of-" ++ name);
     ClientSecretCredential := fun _ _ _ => inr tt;
     credential_get_token := fun _ _ w => (inr "tok", w);
     httpx_get := fun _ _ _ w => (inl not_found, S w);
     json_dumps := fun _ => "...";
     py_str := fun _ => "?";
     int_of_str := fun _ => inl (ValueError "invalid literal for int()") |}.

Definition MISSING_VARIABLES : string :=
  "Missing required environment variables: ENTRA_TENANT_ID, ENTRA_CLIENT_ID, ENTRA_CLIENT_SECRET".

(** *** A credential provider that fails *)

Section LockedOut.
Context {R : Runtime}.

(** Run on a client that holds no token, [m] has the outcome [result],
    leaves the client as it is and sends no HTTP request. *)
Definition locked_out {A : Type} (m : M mstate A) (result : outcome A) : Prop :=
  forall st,
    token_truthy (_token (self st)) = false ->
    fst (m st) = result /\
    self (snd (m st)) = self st /\
    exists evs,
      trace (snd (m st)) = (trace st ++ evs)%list /\ gets evs = [].

(** The same for a tool, on a process whose global client holds no token. *)
Definition tool_locked_out (tool : M proc string) (result : string) : Prop :=
  forall p c,
    entra_client p = Some c -> token_truthy (_token c) = false ->
    fst (tool p) = Return result /\
    entra_client (snd (tool p)) = Some c /\
    exists evs,
      p_trace (snd (tool p)) = (p_trace p ++ evs)%list /\ gets evs = [].

End LockedOut.

Definition auth_failure : exn :=
  Exception "ClientAuthenticationError" "invalid client secret".

(** A runtime whose credential provider always fails. *)
Definition locked : Runtime :=
  {| World := nat;
     Credential := unit;
     os_getenv := fun _ name => Some ("value-of-" ++ name);
     ClientSecretCredential := fun _ _ _ => inr tt;
     credential_get_token := fun _ _ w => (inl auth_failure, S w);
     httpx_get := fun _ _ _ w => (inr [("value", PList [record "a1"])], S w);
     json_dumps := fun _ => "...";
     py_str := fun _ => "?";
     int_of_str := fun _ => inl (ValueError "invalid literal for int()") |}.

(** *** Services whose pagination ends *)

Section ChainEnds.
Context {R : Runtime}.


End ChainEnds.


(* ================================================================== *)
(** * Properties *)

(** ** Strings *)

Lemma append_empty_right (s : string) : s ++ EmptyString = s.
Proof. induction s as [|c s IH]; simpl; [reflexivity | now rewrite IH]. Qed.

Lemma append_snoc (tok : string) (c : ascii) (f : string) :
  (tok ++ String c EmptyString) ++ f = tok ++ String c f.
Proof. induction tok as [|d tok IH]; simpl; [reflexivity | now rewrite IH]. Qed.

Lemma fields_not_nil (s : string) : fields s <> [].
Proof.
  induction s as [|c s IH]; simpl; [discriminate|].
  destruct (is_space c); [discriminate|].
  destruct (fields s); discriminate.
Qed.

(** The scanner of [str.split()] computes the non-empty fields. *)
Lemma split_from_fields (s tok : string) :
  split_from tok s =
  filter str_truthy
    (match fields s with f :: fs => (tok ++ f) :: fs | [] => [tok] end).
Proof.
  revert tok; induction s as [|c s IH]; intros tok; simpl.
  - rewrite append_empty_right. destruct (str_truthy tok); reflexivity.
  - destruct (is_space c) eqn:Hc; simpl.
    + rewrite append_empty_right.
      specialize (IH EmptyString).
      destruct (fields s) as [|f fs] eqn:Hf; [now apply fields_not_nil in Hf|].
      simpl in IH. rewrite IH.
      destruct (str_truthy tok); reflexivity.
    + rewrite IH.
      destruct (fields s) as [|f fs] eqn:Hf; [now apply fields_not_nil in Hf|].
      now rewrite append_snoc.
Qed.

Lemma split_words (raw : string) : split raw = words raw.
Proof.
  unfold split, words. rewrite split_from_fields.
  destruct (fields raw) as [|f fs] eqn:Hf; [now apply fields_not_nil in Hf|].
  reflexivity.
Qed.

Lemma fields_no_space (s : string) : Forall (fun t => no_space t = true) (fields s).
Proof.
  induction s as [|c s IH]; simpl.
  - constructor; [reflexivity | constructor].
  - destruct (is_space c) eqn:Hc.
    + constructor; [reflexivity | exact IH].
    + destruct (fields s) as [|f fs]; [now repeat constructor; simpl; rewrite Hc|].
      inversion IH as [|? ? Hhead Htail]; subst.
      constructor; [simpl; now rewrite Hc, Hhead | exact Htail].
Qed.

Lemma words_no_space (raw : string) :
  Forall (fun t => no_space t = true /\ str_truthy t = true) (words raw).
Proof.
  unfold words. pose proof (fields_no_space raw) as H.
  induction H as [|t ts Ht _ IH]; simpl; [constructor|].
  destruct (str_truthy t) eqn:Hn; [constructor; auto | exact IH].
Qed.

Lemma rstrip_no_space (s : string) : no_space s = true -> rstrip s = s.
Proof.
  induction s as [|c s IH]; simpl; [reflexivity|].
  intros H. apply andb_prop in H as [Hc Hs].
  apply negb_true_iff in Hc. rewrite Hc, (IH Hs). reflexivity.
Qed.

Lemma strip_no_space (s : string) : no_space s = true -> strip s = s.
Proof.
  intros H. unfold strip.
  assert (Hl : lstrip s = s).
  { destruct s as [|c s]; simpl in *; [reflexivity|].
    apply andb_prop in H as [Hc _]. apply negb_true_iff in Hc. now rewrite Hc. }
  rewrite Hl. now apply rstrip_no_space.
Qed.

(** The comprehension [[t.strip() for t in ... if t.strip()]] leaves the
    tokens of [split()] as they are. *)
Lemma comprehension_id (tokens : list string) :
  Forall (fun t => no_space t = true /\ str_truthy t = true) tokens ->
  map strip (filter (fun t => str_truthy (strip t)) tokens) = tokens.
Proof.
  induction 1 as [|t ts [Hs Hn] _ IH]; simpl; [reflexivity|].
  rewrite (strip_no_space t Hs), Hn. simpl.
  now rewrite (strip_no_space t Hs), IH.
Qed.

Lemma replace_escape (t : string) :
  replace dquote (String backslash (String dquote EmptyString)) t = escape_quotes t.
Proof.
  induction t as [|c t IH]; simpl; [reflexivity|].
  destruct (Ascii.eqb c dquote); simpl; now rewrite IH.
Qed.

Lemma quote_term_in_quotes (t : string) : quote_term t = in_quotes (escape_quotes t).
Proof. unfold quote_term, in_quotes. now rewrite replace_escape. Qed.

(** C4. For every raw input, [_build_and_search_query] returns what
    section 4.1 describes: the input is split on whitespace and empty
    tokens are dropped; with no token left, the trimmed input between one
    pair of double quotes; otherwise every token between double quotes,
    its own double quotes escaped with a backslash, joined by [" AND "].
    The function is total (it cannot raise), and on [john doe] it yields
    the two quoted terms joined by AND. *)
Theorem build_and_search_query_spec :
  (forall raw : string, _build_and_search_query raw = buildSearchExpression raw)
  /\ _build_and_search_query "john doe"
     = in_quotes "john" ++ " AND " ++ in_quotes "doe"
  /\ _build_and_search_query "  " = in_quotes EmptyString.
Proof.
  split; [|split; reflexivity].
  intros raw. unfold _build_and_search_query, buildSearchExpression.
  rewrite split_words, (comprehension_id _ (words_no_space raw)).
  destruct (words raw) as [|t ts]; [reflexivity|].
  f_equal. apply map_ext. intros a. apply quote_term_in_quotes.
Qed.

(** ** The effect monad *)

Section MonadLaws.
Context {S A B : Type}.

Lemma bind_return (m : M S A) (k : A -> M S B) (st st' : S) (a : A) :
  m st = (Return a, st') -> bind m k st = k a st'.
Proof. intros H. unfold bind. now rewrite H. Qed.

Lemma bind_raise (m : M S A) (k : A -> M S B) (st st' : S) (e : exn) :
  m st = (Raise e, st') -> bind m k st = (Raise e, st').
Proof. intros H. unfold bind. now rewrite H. Qed.

Lemma bind_diverge (m : M S A) (k : A -> M S B) (st st' : S) :
  m st = (Diverge, st') -> bind m k st = (Diverge, st').
Proof. intros H. unfold bind. now rewrite H. Qed.

Lemma bind_assoc {C : Type} (m : M S A) (f : A -> M S B) (g : B -> M S C) (st : S) :
  bind (bind m f) g st = bind m (fun a => bind (f a) g) st.
Proof. unfold bind. destruct (m st) as [[a|e|] st']; reflexivity. Qed.

Lemma try_except_return (m : M S A) (h : exn -> M S A) (st st' : S) (a : A) :
  m st = (Return a, st') -> try_except m h st = (Return a, st').
Proof. intros H. unfold try_except. now rewrite H. Qed.

Lemma try_except_raise (m : M S A) (h : exn -> M S A) (st st' : S) (e : exn) :
  m st = (Raise e, st') -> try_except m h st = h e st'.
Proof. intros H. unfold try_except. now rewrite H. Qed.

Lemma try_except_diverge (m : M S A) (h : exn -> M S A) (st st' : S) :
  m st = (Diverge, st') -> try_except m h st = (Diverge, st').
Proof. intros H. unfold try_except. now rewrite H. Qed.

Lemma comes_back_ret (a : A) : comes_back (@ret S A a).
Proof. intros st. discriminate. Qed.

Lemma comes_back_raise (e : exn) : comes_back (@raise S A e).
Proof. intros st. discriminate. Qed.

Lemma comes_back_lift (r : exn + A) : comes_back (@lift S A r).
Proof. destruct r; [apply comes_back_raise | apply comes_back_ret]. Qed.

Lemma comes_back_bind (m : M S A) (k : A -> M S B) :
  comes_back m -> (forall a, comes_back (k a)) -> comes_back (bind m k).
Proof.
  intros Hm Hk st. specialize (Hm st). unfold bind.
  destruct (m st) as [[a|e|] st']; simpl in *; [apply Hk | discriminate | congruence].
Qed.


Lemma returns_ret (a : A) : returns (@ret S A a).
Proof. intros st. now exists a, st. Qed.

Lemma returns_bind (m : M S A) (k : A -> M S B) :
  returns m -> (forall a, returns (k a)) -> returns (bind m k).
Proof.
  intros Hm Hk st. destruct (Hm st) as (a & st' & H).
  rewrite (bind_return _ _ _ _ _ H). apply Hk.
Qed.

Lemma returns_try_except (m : M S A) (h : exn -> M S A) :
  comes_back m -> (forall e, returns (h e)) -> returns (try_except m h).
Proof.
  intros Hm Hh st. specialize (Hm st). unfold try_except.
  destruct (m st) as [[a|e|] st']; simpl in *; [eauto | apply Hh | congruence].
Qed.

End MonadLaws.

(** ** The fetch discipline of the client's methods *)

Section Discipline.
Context {R : Runtime}.

Lemma all_ok_app (xs ys : list event) : all_ok xs -> all_ok ys -> all_ok (xs ++ ys).
Proof. unfold all_ok. intros. now apply Forall_app. Qed.

Lemma disciplined_silent {A : Type} (m : M mstate A) :
  (forall st, trace (snd (m st)) = trace st) -> disciplined m.
Proof.
  intros H st. exists []. rewrite app_nil_r. split; [apply H | left; constructor].
Qed.

Lemma disciplined_ret {A : Type} (a : A) : disciplined (ret a).
Proof. now apply disciplined_silent. Qed.

Lemma disciplined_raise {A : Type} (e : exn) : disciplined (@raise mstate A e).
Proof. now apply disciplined_silent. Qed.

Lemma disciplined_diverge {A : Type} : disciplined (@diverge mstate A).
Proof. now apply disciplined_silent. Qed.

Lemma disciplined_lift {A : Type} (r : exn + A) : disciplined (@lift mstate A r).
Proof. destruct r; [apply disciplined_raise | apply disciplined_ret]. Qed.

Lemma disciplined_bind {A B : Type} (m : M mstate A) (k : A -> M mstate B) :
  disciplined m -> (forall a, disciplined (k a)) -> disciplined (bind m k).
Proof.
  intros Hm Hk st. destruct (Hm st) as (evs1 & Ht1 & H1).
  unfold bind. destruct (m st) as [[a|e|] st1] eqn:Em; simpl in *.
  - destruct (Hk a st1) as (evs2 & Ht2 & H2).
    assert (Hok1 : all_ok evs1).
    { destruct H1 as [H1|(? & ? & ? & _ & _ & _ & Habs)]; [exact H1 | discriminate]. }
    exists (evs1 ++ evs2)%list. split.
    + rewrite Ht2, Ht1. now rewrite app_assoc.
    + destruct H2 as [H2|(evs0 & ev & e & He & Hok0 & Hf & Hr)].
      * left. now apply all_ok_app.
      * right. exists (evs1 ++ evs0)%list, ev, e.
        rewrite He, app_assoc. repeat split; auto using all_ok_app.
  - exists evs1. split; [exact Ht1|].
    destruct H1 as [H1|(evs0 & ev & e' & He & Hok0 & Hf & Hr)]; [now left|].
    right. exists evs0, ev, e'. repeat split; auto. congruence.
  - exists evs1. split; [exact Ht1|].
    destruct H1 as [H1|(? & ? & ? & _ & _ & _ & Habs)]; [now left | discriminate].
Qed.

Lemma disciplined_call_get_token (scope : string) : disciplined (call_get_token scope).
Proof.
  intros st. unfold call_get_token.
  destruct (credential_get_token (credential (self st)) scope (world st)) as [[e|t] w];
    simpl; eexists; (split; [reflexivity|]).
  - right. exists [], (EvToken scope (inl e)), e. repeat split. constructor.
  - left. repeat constructor.
Qed.

Lemma disciplined_call_httpx_get url headers params :
  disciplined (call_httpx_get url headers params).
Proof.
  intros st. unfold call_httpx_get.
  destruct (httpx_get url headers params (world st)) as [[e|d] w];
    simpl; eexists; (split; [reflexivity|]).
  - right. exists [], (EvGet url headers params (inl e)), e. repeat split. constructor.
  - left. repeat constructor.
Qed.

Lemma disciplined_get_token : disciplined _get_token.
Proof.
  unfold _get_token. apply disciplined_bind; [now apply disciplined_silent|].
  intros cached. destruct (negb (token_truthy cached)); [|apply disciplined_ret].
  apply disciplined_bind; [apply disciplined_call_get_token|]. intros t.
  apply disciplined_bind; [now apply disciplined_silent | intros; apply disciplined_ret].
Qed.

Lemma disciplined_make_request endpoint params extra_headers :
  disciplined (_make_request endpoint params extra_headers).
Proof.
  unfold _make_request. apply disciplined_bind; [apply disciplined_get_token|].
  intros token. apply disciplined_bind; [now apply disciplined_silent|].
  intros base. apply disciplined_call_httpx_get.
Qed.

Lemma disciplined_collect_loop fuel hdrs limit items link :
  disciplined (collect_loop fuel hdrs limit items link).
Proof.
  revert items link. induction fuel as [|fuel IH]; intros items link; simpl;
    destruct (truthy link && below_limit limit items);
    try apply disciplined_ret; try apply disciplined_diverge.
  apply disciplined_bind; [apply disciplined_get_token|]. intros token.
  apply disciplined_bind; [apply disciplined_call_httpx_get|]. intros page.
  apply disciplined_bind; [apply disciplined_lift|]. intros more. apply IH.
Qed.

Lemma disciplined_collect_paged fuel endpoint params hdrs limit :
  disciplined (_collect_paged fuel endpoint params hdrs limit).
Proof.
  unfold _collect_paged.
  apply disciplined_bind; [apply disciplined_make_request|]. intros first_page.
  apply disciplined_bind; [apply disciplined_lift|]. intros items.
  apply disciplined_bind; [apply disciplined_collect_loop|]. intros items'.
  apply disciplined_ret.
Qed.

(** C5. Whatever the pages served, if some remote call made by
    [_collect_paged] (the fetch of the first page or of any continuation
    page, token included) fails with an exception, the collector's outcome
    is that exception: it is raised at once (the failed call is the last
    one the collector makes, every earlier one succeeded) and no result
    object, hence no partial list of items, is returned. *)
Theorem collect_paged_failure_propagates
    (fuel : nat) (endpoint : string) (params : dict)
    (hdrs : list (string * string)) (limit : option Z) (st : mstate) :
  exists evs,
    trace (snd (_collect_paged fuel endpoint params hdrs limit st))
      = (trace st ++ evs)%list /\
    forall e, fails_with evs e ->
      fst (_collect_paged fuel endpoint params hdrs limit st) = Raise e /\
      exists evs0 ev,
        evs = (evs0 ++ [ev])%list /\ all_ok evs0 /\ ev_failure ev = Some e.
Proof.
  destruct (disciplined_collect_paged fuel endpoint params hdrs limit st)
    as (evs & Ht & H).
  exists evs. split; [exact Ht|]. intros e (ev & Hin & Hf).
  destruct H as [Hok|(evs0 & ev' & e' & He & Hok0 & Hf' & Hr)].
  - unfold all_ok in Hok. rewrite Forall_forall in Hok.
    specialize (Hok ev Hin). congruence.
  - assert (ev = ev').
    { subst evs. apply in_app_or in Hin as [Hin|[Hin|[]]]; [|congruence].
      unfold all_ok in Hok0. rewrite Forall_forall in Hok0.
      specialize (Hok0 ev Hin). congruence. }
    subst ev'. assert (e' = e) by congruence. subst e'.
    split; [exact Hr|]. exists evs0, ev. auto.
Qed.

End Discipline.

(** ** The pagination collector on a page sequence *)

Section Collector.
Context {R : Runtime}.

Lemma collect_loop_stop fuel hdrs limit items link st :
  truthy link && below_limit limit items = false ->
  collect_loop fuel hdrs limit items link st = (Return items, st).
Proof. intros H. destruct fuel; simpl; now rewrite H. Qed.

Lemma collect_loop_step fuel hdrs limit items link st :
  truthy link && below_limit limit items = true ->
  collect_loop (S fuel) hdrs limit items link st =
  bind (fetch_next hdrs link)
       (fun page =>
          more <- lift (py_iter (dict_get page "value" (PList []))) ;;
          collect_loop fuel hdrs limit (items ++ more) (next_link page)) st.
Proof.
  intros H. simpl. rewrite H. unfold fetch_next. now rewrite bind_assoc.
Qed.

Lemma iterable_items (d : dict) :
  iterable d = true -> py_iter (dict_get d "value" (PList [])) = inr (items_of d).
Proof.
  unfold iterable, items_of, page_value.
  destruct (py_iter (dict_get d "value" (PList []))); [discriminate | reflexivity].
Qed.

(** The loop on a page sequence: it asks for the pages [pages_needed]
    names, in order, and for no other. *)
Lemma collect_loop_follows hdrs limit link st rest link_end st_end :
  follows hdrs link st rest link_end st_end ->
  truthy link_end = false ->
  Forall (fun d => iterable d = true) rest ->
  forall fuel items,
    (List.length rest <= fuel)%nat ->
    exists link' st',
      follows hdrs link st (pages_needed limit (List.length items) rest) link' st' /\
      collect_loop fuel hdrs limit items link st =
        (Return (items ++ List.concat (map items_of
                                      (pages_needed limit (List.length items) rest)))%list,
         st').
Proof.
  induction 1 as [link st | link st d st1 ds link' st' Hlink Hfetch Hrest IH];
    intros Hend Hit fuel items Hfuel.
  - exists link, st. simpl. split; [constructor|].
    rewrite collect_loop_stop by (now rewrite Hend). now rewrite app_nil_r.
  - inversion Hit as [|? ? Hd Hds]; subst.
    simpl pages_needed.
    destruct (below_limit limit items) eqn:Hlim.
    + assert (Hw : match limit with
                   | Some n => (Z.of_nat (List.length items) <? n)%Z
                   | None => true
                   end = true) by (destruct limit; exact Hlim).
      rewrite Hw.
      destruct fuel as [|fuel]; [simpl in Hfuel; lia|].
      destruct (IH Hend Hds fuel (items ++ items_of d)%list) as (l2 & s2 & Hf2 & Hrun);
        [simpl in Hfuel; lia|].
      rewrite length_app in Hf2, Hrun.
      exists l2, s2. split; [econstructor; eassumption|].
      rewrite collect_loop_step by (now rewrite Hlink, Hlim).
      rewrite (bind_return _ _ _ _ _ Hfetch).
      rewrite (iterable_items d Hd). unfold lift.
      rewrite (bind_return _ _ _ st1 (items_of d)) by reflexivity.
      rewrite Hrun. simpl List.concat. now rewrite app_assoc.
    + assert (Hw : match limit with
                   | Some n => (Z.of_nat (List.length items) <? n)%Z
                   | None => true
                   end = false) by (destruct limit; exact Hlim).
      rewrite Hw. exists link, st. split; [constructor|].
      rewrite collect_loop_stop by (rewrite Hlim; apply andb_false_r).
      simpl. now rewrite app_nil_r.
Qed.

Lemma follows_gets hdrs link st pages link' st' :
  follows hdrs link st pages link' st' ->
  exists evs, trace st' = (trace st ++ evs)%list /\
              List.length (gets evs) = List.length pages.
Proof.
  induction 1 as [link st | link st d st1 ds link' st' Hlink Hfetch Hrest IH].
  - exists []. now rewrite app_nil_r.
  - destruct IH as (evs2 & Ht2 & Hn2).
    unfold fetch_next in Hfetch. unfold bind at 1 in Hfetch.
    destruct (_get_token st) as [[token|e|] s0] eqn:Htok; try discriminate.
    assert (Htr : exists evs0, trace s0 = (trace st ++ evs0)%list /\ gets evs0 = []).
    { unfold _get_token, bind, read_token in Htok.
      destruct (negb (token_truthy (_token (self st)))).
      - unfold call_get_token in Htok.
        destruct (credential_get_token (credential (self st))
                    "https://graph.microsoft.com/.default" (world st)) as [[e|t] w];
          simpl in Htok; inversion Htok; subst.
        eexists; split; [reflexivity | reflexivity].
      - inversion Htok; subst. exists []. now rewrite app_nil_r. }
    destruct Htr as (evs0 & Ht0 & Hg0).
    unfold _get_next_link, call_httpx_get in Hfetch.
    destruct (httpx_get link _ None (world s0)) as [[e|d'] w] eqn:Hget;
      inversion Hfetch; subst.
    eexists. split.
    + rewrite Ht2. simpl. rewrite Ht0. rewrite <- !app_assoc. reflexivity.
    + unfold gets in *. rewrite !filter_app, !length_app, Hg0, Hn2. reflexivity.
Qed.

Lemma slice_to_truncate (n : Z) (items : list pyval) :
  (0 <= n)%Z ->
  (if (n <? Z.of_nat (List.length items))%Z then slice_to n items else items)
  = firstn (Z.to_nat n) items.
Proof.
  intros Hn. unfold slice_to.
  destruct (Z.ltb_spec n (Z.of_nat (List.length items))) as [Hlt|Hge].
  - destruct (Z.leb_spec 0 n); [reflexivity | lia].
  - symmetry. apply firstn_all2. lia.
Qed.

Lemma pages_needed_unlimited have rest : pages_needed None have rest = rest.
Proof. revert have; induction rest as [|d ds IH]; intros; simpl; [|rewrite IH]; reflexivity. Qed.

End Collector.

Section CollectorTheorem.
Context {R : Runtime}.

(** C2 (amended to limits that are not negative). On a page sequence (a
    first page [first], then the pages [rest] that following the
    continuation references serves, the last page carrying no reference)
    and with enough fuel for it, [_collect_paged] fetches the first page
    and then exactly the continuation pages [pages_needed] names: the
    next page is asked for only while a reference exists and the items
    held are strictly fewer than the limit. The HTTP requests it makes
    after the first are as many as those pages. It returns the items of
    the fetched pages in the order served, cut to the first [n] when the
    limit is [n] (exactly [n] items when more were held), together with
    the count hint of the first page. With no limit it fetches every page
    and returns all items. *)
Theorem collect_paged_page_sequence
    (fuel : nat) (endpoint : string) (params : dict)
    (hdrs : list (string * string)) (limit : option Z)
    (st st1 st_end : mstate) (first : dict) (rest : list dict) (link_end : pyval) :
  (forall n, limit = Some n -> (0 <= n)%Z) ->
  _make_request endpoint (Some params) (Some hdrs) st = (Return first, st1) ->
  follows hdrs (next_link first) st1 rest link_end st_end ->
  truthy link_end = false ->
  Forall (fun d => iterable d = true) (first :: rest) ->
  (List.length rest <= fuel)%nat ->
  let fetched := pages_needed limit (List.length (items_of first)) rest in
  let held := (items_of first ++ List.concat (map items_of fetched))%list in
  exists link' st' evs,
    follows hdrs (next_link first) st1 fetched link' st' /\
    trace st' = (trace st1 ++ evs)%list /\
    List.length (gets evs) = List.length fetched /\
    _collect_paged fuel endpoint params hdrs limit st =
      (Return [("value", PList (truncate limit held)); ("count", count_hint first)],
       st') /\
    (forall n, limit = Some n -> (n < Z.of_nat (List.length held))%Z ->
               Z.of_nat (List.length (truncate limit held)) = n) /\
    (limit = None -> fetched = rest /\ truncate limit held = held).
Proof.
  intros Hpos Hfirst Hfollows Hend Hit Hfuel fetched held.
  inversion Hit as [|? ? Hd Hds]; subst.
  destruct (collect_loop_follows hdrs limit _ _ _ _ _ Hfollows Hend Hds fuel
              (items_of first) Hfuel) as (link' & st' & Hf & Hrun).
  destruct (follows_gets _ _ _ _ _ _ Hf) as (evs & Ht & Hn).
  exists link', st', evs. repeat split; try assumption.
  - unfold _collect_paged.
    rewrite (bind_return _ _ _ _ _ Hfirst).
    rewrite (iterable_items first Hd). unfold lift.
    rewrite (bind_return _ _ _ st1 (items_of first)) by reflexivity.
    rewrite (bind_return _ _ _ _ _ Hrun).
    unfold ret, truncate, count_hint. fold fetched. fold held.
    destruct limit as [n|]; [|reflexivity].
    rewrite (slice_to_truncate n held (Hpos n eq_refl)). reflexivity.
  - intros n Hl Hlt. subst limit. simpl.
    rewrite length_firstn. specialize (Hpos n eq_refl). lia.
  - subst limit. apply pages_needed_unlimited.
  - subst limit. reflexivity.
Qed.

End CollectorTheorem.

(** C2, the claim as stated fails for a negative limit. The service has
    one page of two items (both come back when no limit is set); with the
    limit -1 the two items held exceed the limit, and the collector
    returns one item ([items[:-1]] drops the last): the result is not cut
    to exactly the limit, nor even to no more than the limit. *)
Lemma collect_paged_negative_limit :
  let run := fun limit =>
    @_collect_paged (scripted one_page) 1 "/users"
       [("$search", PStr "x")] [("ConsistencyLevel", "eventual")]
       limit (fresh_state one_page) in
  fst (run None)
    = Return [("value", PList [record "a1"; record "a2"]); ("count", PNone)]
  /\ fst (run (Some (-1)%Z))
     = Return [("value", PList [record "a1"]); ("count", PNone)]
  /\ ~ (forall result : list pyval,
          fst (run (Some (-1)%Z))
            = Return [("value", PList result); ("count", PNone)] ->
          (-1 < Z.of_nat (List.length [record "a1"; record "a2"]))%Z ->
          Z.of_nat (List.length result) = (-1)%Z)
  /\ [record "a1"] <> truncate (Some (-1)%Z) [record "a1"; record "a2"].
Proof.
  split; [reflexivity|]. split; [reflexivity|]. split; [|discriminate].
  intros H. specialize (H [record "a1"] eq_refl). simpl in H. lia.
Qed.

(** The collector on three pages of three items with the limit 5: pages 1
    and 2 are fetched, page 3 is not, five items come back. *)
Lemma collect_paged_page_sequence_witness :
  exists st',
    @_collect_paged (scripted three_pages) 2 "/users"
        [("$search", PStr "x")] [("ConsistencyLevel", "eventual")]
        (Some 5%Z) (fresh_state three_pages)
    = (Return [("value", PList [record "a1"; record "a2"; record "a3";
                                record "b1"; record "b2"]);
               ("count", PInt 9)], st')
    /\ map (fun ev => match ev with EvGet url _ _ _ => url | _ => PNone end)
           (gets (trace st'))
       = [PStr (GRAPH ++ "/users"); PStr "page2"].
Proof.
  pose (R := scripted three_pages).
  pose (hdrs := [("ConsistencyLevel", "eventual")]).
  pose (st1 := snd (@_make_request R "/users" (Some [("$search", PStr "x")])
                      (Some hdrs) (fresh_state three_pages))).
  pose (st2 := snd (@fetch_next R hdrs (PStr "page2") st1)).
  pose (st3 := snd (@fetch_next R hdrs (PStr "page3") st2)).
  destruct (@collect_paged_page_sequence R 2 "/users" [("$search", PStr "x")]
              hdrs (Some 5%Z) (fresh_state three_pages) st1 st3
              [("value", PList [record "a1"; record "a2"; record "a3"]);
               ("@odata.count", PInt 9);
               ("@odata.nextLink", PStr "page2")]
              [[("value", PList [record "b1"; record "b2"; record "b3"]);
                ("@odata.nextLink", PStr "page3")];
               [("value", PList [record "c1"; record "c2"; record "c3"])]]
              PNone)
    as (link' & st' & evs & Hf & Ht & Hn & Hrun & _).
  - intros n Hn. inversion Hn. lia.
  - reflexivity.
  - eapply follows_cons; [reflexivity | reflexivity |].
    eapply follows_cons; [reflexivity | reflexivity |].
    apply follows_nil.
  - reflexivity.
  - repeat constructor.
  - simpl. lia.
  - exists st'. split; [exact Hrun|].
    simpl in Hf. inversion Hf as [|? ? ? ? ? ? ? _ Hfetch Hrest]; subst.
    inversion Hrest; subst.
    vm_compute in Hfetch. inversion Hfetch; subst. reflexivity.
Defined.

(** ** The directory client *)

Section DirectoryClient.
Context {R : Runtime}.

(** What [_collect_paged] returns is a dict with the two keys [value] and
    [count], the latter bound to the count hint of the first page. *)
Lemma collect_paged_return fuel endpoint params hdrs limit st page st' :
  _collect_paged fuel endpoint params hdrs limit st = (Return page, st') ->
  exists first st1 items,
    _make_request endpoint (Some params) (Some hdrs) st = (Return first, st1) /\
    page = [("value", PList items); ("count", count_hint first)].
Proof.
  unfold _collect_paged, bind.
  destruct (_make_request endpoint (Some params) (Some hdrs) st)
    as [[first|e|] st1]; try discriminate.
  destruct (lift (py_iter (dict_get first "value" (PList []))) st1)
    as [[items|e|] st2]; try discriminate.
  destruct (collect_loop fuel hdrs limit items
              (dict_get first "@odata.nextLink" PNone) st2)
    as [[items'|e|] st3]; try discriminate.
  unfold ret. intros H. inversion H; subst. eauto.
Qed.

(** The tail both branches of a search share: the result dict built from
    what the collector returned. *)
Lemma search_result_of_page (key : string) (page : dict) (st : mstate) :
  (exists items c, page = [("value", PList items); ("count", c)]) ->
  (let users := dict_get page "value" (PList []) in
   n <- lift (py_len users) ;;
   let total_count := dict_get page "count" (PInt n) in
   ret [(key, users); ("total_count", total_count)]) st
  = (Return [(key, dict_get page "value" (PList []));
             ("total_count", dict_get page "count" PNone)], st).
Proof. intros (items & c & ->). reflexivity. Qed.

(** C1. If the paged fetch with the [$search] expression raises an
    exception, [search_users] (and likewise [search_groups]) runs the paged
    fetch once more, on the same endpoint with the [startswith] filter, the
    same [$top] limit, [$select] list, [ConsistencyLevel] header and item
    limit, from the state the failed attempt left; what that second fetch
    does is what the operation does: its result is returned, and an
    exception it raises propagates (there is no third attempt). *)
Theorem search_falls_back_once :
  (forall (fuel : nat) (query : string) (limit : Z) (st st1 : mstate) (e : exn),
     _collect_paged fuel "/users"
       [("$search", PStr (_build_and_search_query (sanitize query)));
        ("$count", PStr "true"); ("$top", PInt limit); ("$select", PStr USER_SELECT)]
       [("ConsistencyLevel", "eventual")] (Some limit) st = (Raise e, st1) ->
     search_users fuel query limit st =
     match _collect_paged fuel "/users"
             [("$filter", PStr ("startswith(displayName,'" ++ sanitize query
                                ++ "') or startswith(mail,'" ++ sanitize query
                                ++ "') or startswith(userPrincipalName,'"
                                ++ sanitize query ++ "')"));
              ("$count", PStr "true"); ("$top", PInt limit);
              ("$select", PStr USER_SELECT)]
             [("ConsistencyLevel", "eventual")] (Some limit) st1 with
     | (Return page, st2) =>
         (Return [("users", dict_get page "value" (PList []));
                  ("total_count", dict_get page "count" PNone)], st2)
     | (Raise e2, st2) => (Raise e2, st2)
     | (Diverge, st2) => (Diverge, st2)
     end)
  /\
  (forall (fuel : nat) (query : string) (limit : Z) (st st1 : mstate) (e : exn),
     _collect_paged fuel "/groups"
       [("$search", PStr (_build_and_search_query (sanitize query)));
        ("$count", PStr "true"); ("$top", PInt limit); ("$select", PStr GROUP_SELECT)]
       [("ConsistencyLevel", "eventual")] (Some limit) st = (Raise e, st1) ->
     search_groups fuel query limit st =
     match _collect_paged fuel "/groups"
             [("$filter", PStr ("startswith(displayName,'" ++ sanitize query
                                ++ "') or startswith(description,'"
                                ++ sanitize query ++ "')"));
              ("$count", PStr "true"); ("$top", PInt limit);
              ("$select", PStr GROUP_SELECT)]
             [("ConsistencyLevel", "eventual")] (Some limit) st1 with
     | (Return page, st2) =>
         (Return [("groups", dict_get page "value" (PList []));
                  ("total_count", dict_get page "count" PNone)], st2)
     | (Raise e2, st2) => (Raise e2, st2)
     | (Diverge, st2) => (Diverge, st2)
     end).
Proof.
  split; intros fuel query limit st st1 e Hprimary.
  - unfold search_users.
    rewrite (try_except_raise _ _ st st1 e) by (now apply bind_raise).
    match goal with
    | |- bind ?m ?k st1 = _ => destruct (m st1) as [[page|e2|] st2] eqn:Hfb
    end.
    + rewrite (bind_return _ _ _ _ _ Hfb).
      destruct (collect_paged_return _ _ _ _ _ _ _ _ Hfb) as (first & s & items & _ & Hp).
      apply search_result_of_page. eauto.
    + now rewrite (bind_raise _ _ _ _ _ Hfb).
    + now rewrite (bind_diverge _ _ _ _ Hfb).
  - unfold search_groups.
    rewrite (try_except_raise _ _ st st1 e) by (now apply bind_raise).
    match goal with
    | |- bind ?m ?k st1 = _ => destruct (m st1) as [[page|e2|] st2] eqn:Hfb
    end.
    + rewrite (bind_return _ _ _ _ _ Hfb).
      destruct (collect_paged_return _ _ _ _ _ _ _ _ Hfb) as (first & s & items & _ & Hp).
      apply search_result_of_page. eauto.
    + now rewrite (bind_raise _ _ _ _ _ Hfb).
    + now rewrite (bind_diverge _ _ _ _ Hfb).
Qed.

(** When the [$search] fetch succeeds with the result [page], the result
    of [search_users] (and of [search_groups]) carries the items of [page]
    (what the collector collected) and, as total count, the count hint of
    the first page as it is: [None] when the service sent no hint. The
    state is the one the fetch left: no [$filter] request follows. *)
Lemma search_total_count_is_hint :
  (forall fuel query limit st page st',
     _collect_paged fuel "/users"
       [("$search", PStr (_build_and_search_query (sanitize query)));
        ("$count", PStr "true"); ("$top", PInt limit); ("$select", PStr USER_SELECT)]
       [("ConsistencyLevel", "eventual")] (Some limit) st = (Return page, st') ->
     exists first st1 items,
       _make_request "/users"
         (Some [("$search", PStr (_build_and_search_query (sanitize query)));
                ("$count", PStr "true"); ("$top", PInt limit);
                ("$select", PStr USER_SELECT)])
         (Some [("ConsistencyLevel", "eventual")]) st = (Return first, st1) /\
       page = [("value", PList items); ("count", count_hint first)] /\
       search_users fuel query limit st =
         (Return [("users", PList items); ("total_count", count_hint first)], st'))
  /\
  (forall fuel query limit st page st',
     _collect_paged fuel "/groups"
       [("$search", PStr (_build_and_search_query (sanitize query)));
        ("$count", PStr "true"); ("$top", PInt limit); ("$select", PStr GROUP_SELECT)]
       [("ConsistencyLevel", "eventual")] (Some limit) st = (Return page, st') ->
     exists first st1 items,
       _make_request "/groups"
         (Some [("$search", PStr (_build_and_search_query (sanitize query)));
                ("$count", PStr "true"); ("$top", PInt limit);
                ("$select", PStr GROUP_SELECT)])
         (Some [("ConsistencyLevel", "eventual")]) st = (Return first, st1) /\
       page = [("value", PList items); ("count", count_hint first)] /\
       search_groups fuel query limit st =
         (Return [("groups", PList items); ("total_count", count_hint first)], st')).
Proof.
  split; intros fuel query limit st page st' Hrun;
    destruct (collect_paged_return _ _ _ _ _ _ _ _ Hrun)
      as (first & st1 & items & Hfirst & Hp);
    exists first, st1, items; (split; [exact Hfirst|]); (split; [exact Hp|]).
  - unfold search_users. apply try_except_return.
    rewrite (bind_return _ _ _ _ _ Hrun). subst page. reflexivity.
  - unfold search_groups. apply try_except_return.
    rewrite (bind_return _ _ _ _ _ Hrun). subst page. reflexivity.
Qed.

End DirectoryClient.

(** ** Identifier resolution, membership and group members *)

Section Membership.
Context {R : Runtime}.

(** One authenticated request: at most one HTTP GET, exactly one (to the
    endpoint under the base URL, with the given parameters) when it
    returns; it always comes back. *)
Lemma make_request_trace endpoint params extra_headers st :
  exists evs,
    trace (snd (_make_request endpoint params extra_headers st))
      = (trace st ++ evs)%list /\
    (List.length (gets evs) <= 1)%nat /\
    fst (_make_request endpoint params extra_headers st) <> Diverge /\
    forall d, fst (_make_request endpoint params extra_headers st) = Return d ->
      exists token,
        gets evs = [EvGet (PStr (base_url (self st) ++ endpoint))
                          (sent_headers token
                             (match extra_headers with Some eh => eh | None => [] end))
                          params (inr d)].
Proof.
  assert (Hh : forall token,
            match extra_headers with
            | Some (kv :: more) =>
                dict_update [("Authorization", "Bearer " ++ token);
                             ("Content-Type", "application/json")] (kv :: more)
            | _ => [("Authorization", "Bearer " ++ token);
                    ("Content-Type", "application/json")]
            end
            = sent_headers token
                (match extra_headers with Some eh => eh | None => [] end)).
  { intros token. destruct extra_headers as [[|kv more]|]; reflexivity. }
  unfold _make_request, _get_token, bind, read_token, read_base_url, write_token.
  destruct (negb (token_truthy (_token (self st)))).
  - unfold call_get_token.
    destruct (credential_get_token (credential (self st))
                "https://graph.microsoft.com/.default" (world st)) as [[e|t] w]; simpl.
    + eexists. split; [reflexivity|]. simpl.
      repeat split; [lia | discriminate | discriminate].
    + unfold call_httpx_get; simpl.
      match goal with
      | |- context [httpx_get ?u ?h ?p ?w'] =>
          destruct (httpx_get u h p w') as [[e|d] w2]
      end; simpl.
      * eexists. split; [rewrite <- app_assoc; reflexivity|]. simpl.
        repeat split; [lia | discriminate | discriminate].
      * eexists. split; [rewrite <- app_assoc; reflexivity|]. simpl.
        repeat split; [lia | discriminate |].
        intros d' Hd. inversion Hd; subst. exists t. now rewrite <- Hh.
  - unfold ret, call_httpx_get; simpl.
    match goal with
    | |- context [httpx_get ?u ?h ?p ?w'] =>
        destruct (httpx_get u h p w') as [[e|d] w2]
    end; simpl.
    * eexists. split; [reflexivity|]. simpl.
      repeat split; [lia | discriminate | discriminate].
    * eexists. split; [reflexivity|]. simpl.
      repeat split; [lia | discriminate |].
      intros d' Hd. inversion Hd; subst. eexists. now rewrite <- Hh.
Qed.

Lemma make_request_total endpoint params extra_headers st :
  fst (_make_request endpoint params extra_headers st) <> Diverge.
Proof.
  destruct (make_request_trace endpoint params extra_headers st) as (? & _ & _ & H & _).
  exact H.
Qed.

(** Once its first request has returned, the collector only adds to the
    trace that request left. *)
Lemma collect_paged_after_first fuel endpoint params hdrs limit st first st1 :
  _make_request endpoint (Some params) (Some hdrs) st = (Return first, st1) ->
  exists more,
    trace (snd (_collect_paged fuel endpoint params hdrs limit st))
      = (trace st1 ++ more)%list.
Proof.
  intros Hfirst. unfold _collect_paged. rewrite (bind_return _ _ _ _ _ Hfirst).
  match goal with
  | |- context [snd (?m st1)] =>
      assert (Hd : disciplined m)
  end.
  { apply disciplined_bind; [apply disciplined_lift|]. intros items.
    apply disciplined_bind; [apply disciplined_collect_loop|]. intros items'.
    apply disciplined_ret. }
  destruct (Hd st1) as (more & Ht & _). now exists more.
Qed.

Lemma snd_bind_ret {A B : Type} (m : M mstate A) (f : A -> B) (st : mstate) :
  snd (bind m (fun a => ret (f a)) st) = snd (m st).
Proof. unfold bind, ret. destruct (m st) as [[a|e|] st']; reflexivity. Qed.

(** C7. [_resolve_user_id] always returns and never raises. When the
    direct lookup of the identifier as a path segment raises, and the
    lookup by mail either raises as well or returns a page with no record,
    it returns [None]. *)
Theorem resolve_user_id_swallows :
  (forall (identifier : string) (st : mstate),
     exists v st', _resolve_user_id identifier st = (Return v, st'))
  /\
  (forall (identifier : string) (st st1 st2 : mstate) (e1 e2 : exn),
     _make_request ("/users/" ++ identifier) None None st = (Raise e1, st1) ->
     _make_request "/users"
       (Some [("$filter", PStr ("mail eq '" ++ identifier ++ "'"));
              ("$select", PStr "id")]) None st1 = (Raise e2, st2) ->
     _resolve_user_id identifier st = (Return PNone, st2))
  /\
  (forall (identifier : string) (st st1 st2 : mstate) (e1 : exn) (res : dict),
     _make_request ("/users/" ++ identifier) None None st = (Raise e1, st1) ->
     _make_request "/users"
       (Some [("$filter", PStr ("mail eq '" ++ identifier ++ "'"));
              ("$select", PStr "id")]) None st1 = (Return res, st2) ->
     truthy (dict_get res "value" (PList [])) = false ->
     _resolve_user_id identifier st = (Return PNone, st2)).
Proof.
  split; [|split].
  - intros identifier. unfold _resolve_user_id.
    apply returns_try_except.
    + apply comes_back_bind; [exact (make_request_total _ _ _)|].
      intros _. apply comes_back_ret.
    + intros _. apply returns_bind.
      * apply returns_try_except; [|intros _; apply returns_ret].
        apply comes_back_bind; [exact (make_request_total _ _ _)|].
        intros res. destruct (truthy (dict_get res "value" (PList [])));
          [|apply comes_back_ret].
        apply comes_back_bind; [apply comes_back_lift|]. intros first.
        apply comes_back_bind; [apply comes_back_lift|]. intros id.
        apply comes_back_ret.
      * intros [v|]; apply returns_ret.
  - intros identifier st st1 st2 e1 e2 Hdirect Hmail.
    unfold _resolve_user_id.
    rewrite (try_except_raise _ _ st st1 e1) by (now apply bind_raise).
    rewrite (bind_return _ _ st1 st2 None); [reflexivity|].
    rewrite (try_except_raise _ _ st1 st2 e2); [reflexivity|].
    now apply bind_raise.
  - intros identifier st st1 st2 e1 res Hdirect Hmail Hempty.
    unfold _resolve_user_id.
    rewrite (try_except_raise _ _ st st1 e1) by (now apply bind_raise).
    rewrite (bind_return _ _ st1 st2 None); [reflexivity|].
    apply try_except_return.
    rewrite (bind_return _ _ _ _ _ Hmail). now rewrite Hempty.
Qed.

(** C10. When the direct lookup of the identifier as a path segment
    returns, [_resolve_user_id] returns the identifier itself, as given
    (the fetched record is dropped), and [get_user_membership] paginates
    [/users/<identifier>/memberOf] with that very string. *)
Theorem resolve_user_id_direct_is_verbatim
    (identifier : string) (st st1 : mstate) (resp : dict) :
  _make_request ("/users/" ++ identifier) None None st = (Return resp, st1) ->
  _resolve_user_id identifier st = (Return (PStr identifier), st1) /\
  forall (fuel : nat) (limit : option Z),
    get_user_membership fuel identifier limit st =
    (page <- _collect_paged fuel ("/users/" ++ identifier ++ "/memberOf")
               [("$select", PStr GROUP_SELECT); ("$count", PStr "true");
                ("$top", PInt 50)]
               [("ConsistencyLevel", "eventual")] limit ;;
     ret (dict_get page "value" (PList []))) st1.
Proof.
  intros Hdirect.
  assert (Hres : _resolve_user_id identifier st = (Return (PStr identifier), st1)).
  { unfold _resolve_user_id. apply try_except_return.
    now rewrite (bind_return _ _ _ _ _ Hdirect). }
  split; [exact Hres|]. intros fuel limit.
  unfold get_user_membership. rewrite (bind_return _ _ _ _ _ Hres).
  unfold py_or. destruct (truthy (PStr identifier)); reflexivity.
Qed.

(** C8 (amended: the raw identifier is used when resolution returns
    [None] or any other falsy value, such as an empty id).
    [get_user_membership] first resolves the identifier; it then runs the
    pagination collector on [/users/<id>/memberOf], where [<id>] is the
    resolved value when that is truthy and the raw identifier otherwise,
    with [$top] 50, the header [ConsistencyLevel: eventual] and the
    caller's limit, and returns the collected items. In particular, when
    the direct lookup raises and the lookup by mail yields a first record
    whose id is a non-empty string, the path is built from that id, and
    the request that opens the pagination is the GET of
    [<base>/users/<id>/memberOf] with that header and those parameters. *)
Theorem get_user_membership_resolves_first :
  (forall (fuel : nat) (user_identifier : string) (limit : option Z)
          (st st1 : mstate) (resolved : pyval),
     _resolve_user_id user_identifier st = (Return resolved, st1) ->
     get_user_membership fuel user_identifier limit st =
     (page <- _collect_paged fuel
                ("/users/"
                 ++ format_value (if truthy resolved then resolved
                                  else PStr user_identifier)
                 ++ "/memberOf")
                [("$select", PStr GROUP_SELECT); ("$count", PStr "true");
                 ("$top", PInt 50)]
                [("ConsistencyLevel", "eventual")] limit ;;
      ret (dict_get page "value" (PList []))) st1)
  /\
  (forall (fuel : nat) (user_identifier : string) (limit : option Z)
          (st st1 st2 : mstate) (e : exn) (res : dict)
          (first : dict) (others : list pyval) (id : string),
     _make_request ("/users/" ++ user_identifier) None None st = (Raise e, st1) ->
     _make_request "/users"
       (Some [("$filter", PStr ("mail eq '" ++ user_identifier ++ "'"));
              ("$select", PStr "id")]) None st1 = (Return res, st2) ->
     dict_get res "value" (PList []) = PList (PDict first :: others) ->
     dict_get first "id" PNone = PStr id ->
     str_truthy id = true ->
     get_user_membership fuel user_identifier limit st =
     (page <- _collect_paged fuel ("/users/" ++ id ++ "/memberOf")
                [("$select", PStr GROUP_SELECT); ("$count", PStr "true");
                 ("$top", PInt 50)]
                [("ConsistencyLevel", "eventual")] limit ;;
      ret (dict_get page "value" (PList []))) st2
     /\
     forall (first_page : dict) (st3 : mstate),
       _make_request ("/users/" ++ id ++ "/memberOf")
         (Some [("$select", PStr GROUP_SELECT); ("$count", PStr "true");
                ("$top", PInt 50)])
         (Some [("ConsistencyLevel", "eventual")]) st2 = (Return first_page, st3) ->
       exists token more,
         gets (trace (snd (get_user_membership fuel user_identifier limit st))) =
         List.app (gets (trace st2))
           (EvGet (PStr (base_url (self st2) ++ "/users/" ++ id ++ "/memberOf"))
                   [("Authorization", "Bearer " ++ token);
                    ("Content-Type", "application/json");
                    ("ConsistencyLevel", "eventual")]
                   (Some [("$select", PStr GROUP_SELECT); ("$count", PStr "true");
                          ("$top", PInt 50)])
                   (inr first_page)
             :: more)).
Proof.
  assert (Hgen : forall fuel user_identifier limit st st1 resolved,
     _resolve_user_id user_identifier st = (Return resolved, st1) ->
     get_user_membership fuel user_identifier limit st =
     (page <- _collect_paged fuel
                ("/users/"
                 ++ format_value (if truthy resolved then resolved
                                  else PStr user_identifier)
                 ++ "/memberOf")
                [("$select", PStr GROUP_SELECT); ("$count", PStr "true");
                 ("$top", PInt 50)]
                [("ConsistencyLevel", "eventual")] limit ;;
      ret (dict_get page "value" (PList []))) st1).
  { intros fuel uid limit st st1 resolved Hres.
    unfold get_user_membership. now rewrite (bind_return _ _ _ _ _ Hres). }
  split; [exact Hgen|].
  intros fuel uid limit st st1 st2 e res first others id Hdirect Hmail Hval Hid Hne.
  assert (Hres : _resolve_user_id uid st = (Return (PStr id), st2)).
  { unfold _resolve_user_id.
    rewrite (try_except_raise _ _ st st1 e) by (now apply bind_raise).
    rewrite (bind_return _ _ st1 st2 (Some (PStr id))); [reflexivity|].
    apply try_except_return.
    rewrite (bind_return _ _ _ _ _ Hmail). rewrite Hval. simpl.
    unfold bind, lift. simpl. now rewrite Hid. }
  assert (Heq : get_user_membership fuel uid limit st =
     (page <- _collect_paged fuel ("/users/" ++ id ++ "/memberOf")
                [("$select", PStr GROUP_SELECT); ("$count", PStr "true");
                 ("$top", PInt 50)]
                [("ConsistencyLevel", "eventual")] limit ;;
      ret (dict_get page "value" (PList []))) st2).
  { rewrite (Hgen fuel uid limit st st2 (PStr id) Hres). simpl. now rewrite Hne. }
  split; [exact Heq|].
  intros first_page st3 Hfirst.
  rewrite Heq, snd_bind_ret.
  destruct (collect_paged_after_first fuel _ _ _ limit _ _ _ Hfirst) as (more & Ht).
  destruct (make_request_trace ("/users/" ++ id ++ "/memberOf")
              (Some [("$select", PStr GROUP_SELECT); ("$count", PStr "true");
                     ("$top", PInt 50)])
              (Some [("ConsistencyLevel", "eventual")]) st2)
    as (evs & Ht3 & _ & _ & Hget).
  rewrite Hfirst in Ht3, Hget. simpl in Ht3.
  destruct (Hget first_page eq_refl) as (token & Hg).
  exists token, (gets more).
  rewrite Ht, Ht3. unfold gets in *. rewrite !filter_app, Hg.
  rewrite <- app_assoc. reflexivity.
Qed.

(** C9. [get_group_members] makes one authenticated request, to
    [/groups/<id>/members] with [$top] set to the limit, and returns the
    [value] entry of that one response as it is. It makes at most one HTTP
    GET whatever the response carries (a continuation reference in it is
    never followed), and exactly that GET, with the bearer token and the
    content type as only headers, whenever it returns. *)
Theorem get_group_members_single_page (group_id : string) (limit : Z) (st : mstate) :
  get_group_members group_id limit st =
    match _make_request ("/groups/" ++ group_id ++ "/members")
            (Some [("$top", PInt limit);
                   ("$select",
                    PStr "id,displayName,userPrincipalName,mail,jobTitle,department")])
            None st with
    | (Return response, st') => (Return (dict_get response "value" (PList [])), st')
    | (Raise e, st') => (Raise e, st')
    | (Diverge, st') => (Diverge, st')
    end
  /\
  exists evs,
    trace (snd (get_group_members group_id limit st)) = (trace st ++ evs)%list /\
    (List.length (gets evs) <= 1)%nat /\
    forall members,
      fst (get_group_members group_id limit st) = Return members ->
      exists token response,
        gets evs =
          [EvGet (PStr (base_url (self st) ++ "/groups/" ++ group_id ++ "/members"))
                 [("Authorization", "Bearer " ++ token);
                  ("Content-Type", "application/json")]
                 (Some [("$top", PInt limit);
                        ("$select",
                         PStr "id,displayName,userPrincipalName,mail,jobTitle,department")])
                 (inr response)] /\
        members = dict_get response "value" (PList []).
Proof.
  assert (Heq : get_group_members group_id limit st =
    match _make_request ("/groups/" ++ group_id ++ "/members")
            (Some [("$top", PInt limit);
                   ("$select",
                    PStr "id,displayName,userPrincipalName,mail,jobTitle,department")])
            None st with
    | (Return response, st') => (Return (dict_get response "value" (PList [])), st')
    | (Raise e, st') => (Raise e, st')
    | (Diverge, st') => (Diverge, st')
    end).
  { unfold get_group_members, bind.
    destruct (_make_request _ _ None st) as [[response|e|] st']; reflexivity. }
  split; [exact Heq|].
  destruct (make_request_trace ("/groups/" ++ group_id ++ "/members")
              (Some [("$top", PInt limit);
                     ("$select",
                      PStr "id,displayName,userPrincipalName,mail,jobTitle,department")])
              None st) as (evs & Ht & Hn & _ & Hget).
  exists evs. rewrite Heq.
  destruct (_make_request _ _ None st) as [[response|e|] st'];
    simpl in *; repeat split; try assumption; try discriminate.
  intros members Hm. inversion Hm; subst.
  destruct (Hget response eq_refl) as (token & Hg).
  exists token, response. split; [exact Hg | reflexivity].
Qed.

End Membership.

(** ** The tool callables *)

Section Tools.
Context {R : Runtime}.





End Tools.

(** ** The client on concrete services *)

(** C3, the code against the claim. The service answers the [$search]
    request with two users and no [@odata.count]. [search_users] returns
    [None] as total count, not 2: the key [count] is always present in the
    collector's result, so the default [len(users)] of
    [page.get("count", len(users))] is never taken. In the tool,
    [int(None)] then raises, and the caller gets an error string instead
    of the two users. *)
Theorem search_users_total_count_without_hint :
  fst (@search_users (scripted one_page) 1 "john" 10 (fresh_state one_page))
    = Return [("users", PList [record "a1"; record "a2"]); ("total_count", PNone)]
  /\ fst (@search_entra_users (scripted one_page) 1 "john" 10 (fresh_proc one_page))
     = Return "Error searching users: int() argument must be a string, a bytes-like object or a real number, not 'NoneType'".
Proof. split; reflexivity. Qed.

(** C8, the claim as stated fails when resolution returns a falsy value
    other than [None]: the lookup by mail finds a record whose id is the
    empty string, [_resolve_user_id] returns that string (not [None]), and
    the membership request still goes to the raw identifier. *)
Lemma get_user_membership_falsy_id :
  let st0 := fresh_state (jane_by_mail EmptyString) in
  fst (@_resolve_user_id (scripted (jane_by_mail EmptyString)) "jane@co.com" st0)
    = Return (PStr EmptyString)
  /\ PStr EmptyString <> PNone
  /\ map (fun ev => match ev with EvGet url _ _ _ => url | _ => PNone end)
         (gets (trace (snd (@get_user_membership (scripted (jane_by_mail EmptyString))
                              1 "jane@co.com" None st0))))
     = [PStr (GRAPH ++ "/users/jane@co.com");
        PStr (GRAPH ++ "/users");
        PStr (GRAPH ++ "/users/jane@co.com/memberOf")].
Proof. split; [reflexivity|]. split; [discriminate | reflexivity]. Qed.

(** The [$search] request of a user search is refused with a 400; the
    [$filter] request is made next and its page is the result. *)
Lemma search_falls_back_once_witness :
  exists st',
    @search_users (scripted search_refused) 1 "john" 10 (fresh_state search_refused)
    = (Return [("users", PList [record "a1"]); ("total_count", PNone)], st')
    /\ map (fun ev => match ev with
                      | EvGet _ _ (Some ((k, _) :: _)) _ => k
                      | _ => EmptyString
                      end)
           (gets (trace st'))
       = ["$search"; "$filter"].
Proof.
  set (R := scripted search_refused).
  pose (primary := @_collect_paged R 1 "/users"
          [("$search", PStr (_build_and_search_query (sanitize "john")));
           ("$count", PStr "true"); ("$top", PInt 10); ("$select", PStr USER_SELECT)]
          [("ConsistencyLevel", "eventual")] (Some 10%Z) (fresh_state search_refused)).
  eexists.
  rewrite (proj1 (@search_falls_back_once R) 1%nat "john" 10%Z
             (fresh_state search_refused) (snd primary)
             (Exception "HTTPStatusError" "400 Bad Request") eq_refl).
  split; reflexivity.
Defined.

(** The second page of a search fails with a 503: the collector raises it
    and the item of the first page is not returned. *)
Lemma collect_paged_failure_propagates_witness :
  fst (@_collect_paged (scripted second_page_fails) 3 "/users"
         [("$search", PStr "x")] [("ConsistencyLevel", "eventual")] None
         (fresh_state second_page_fails))
  = Raise (Exception "HTTPStatusError" "503 Service Unavailable").
Proof.
  destruct (@collect_paged_failure_propagates (scripted second_page_fails) 3 "/users"
              [("$search", PStr "x")] [("ConsistencyLevel", "eventual")] None
              (fresh_state second_page_fails)) as (evs & Ht & H).
  apply H. vm_compute in Ht.
  exists (EvGet (PStr "page2")
            [("ConsistencyLevel", "eventual"); ("Authorization", "Bearer tok");
             ("Content-Type", "application/json")]
            None (inl (Exception "HTTPStatusError" "503 Service Unavailable"))).
  split; [|reflexivity].
  rewrite <- Ht. vm_compute. right. right. left. reflexivity.
Defined.

(** Neither lookup of [jane@co.com] is answered: resolution returns
    [None]. *)
Lemma resolve_user_id_swallows_witness :
  exists st',
    @_resolve_user_id (scripted []) "jane@co.com" (fresh_state []) = (Return PNone, st').
Proof.
  set (R := scripted []).
  pose (st1 := snd (@_make_request R "/users/jane@co.com" None None (fresh_state []))).
  pose (st2 := snd (@_make_request R "/users"
                      (Some [("$filter", PStr "mail eq 'jane@co.com'");
                             ("$select", PStr "id")]) None st1)).
  exists st2.
  apply (proj1 (proj2 (@resolve_user_id_swallows R)) "jane@co.com"
           (fresh_state []) st1 st2 not_found not_found); reflexivity.
Defined.

(** [jane@co.com] is no known path segment but the mail of user [u42]:
    the membership request goes to [/users/u42/memberOf]. *)
Lemma get_user_membership_resolves_first_witness :
  let run := @get_user_membership (scripted (jane_by_mail "u42")) 1 "jane@co.com" None
               (fresh_state (jane_by_mail "u42")) in
  fst run = Return (PList [record "g1"])
  /\ map (fun ev => match ev with EvGet url _ _ _ => url | _ => PNone end)
         (gets (trace (snd run)))
     = [PStr (GRAPH ++ "/users/jane@co.com");
        PStr (GRAPH ++ "/users");
        PStr (GRAPH ++ "/users/u42/memberOf")].
Proof.
  set (R := scripted (jane_by_mail "u42")).
  set (st0 := fresh_state (jane_by_mail "u42")).
  pose (st1 := snd (@_make_request R "/users/jane@co.com" None None st0)).
  pose (st2 := snd (@_make_request R "/users"
                      (Some [("$filter", PStr "mail eq 'jane@co.com'");
                             ("$select", PStr "id")]) None st1)).
  intros run. unfold run.
  rewrite (proj1 (proj2 (@get_user_membership_resolves_first R) 1%nat "jane@co.com"
                    None st0 st1 st2 not_found
                    [("value", PList [record "u42"])] [("id", PStr "u42")] [] "u42"
                    eq_refl eq_refl eq_refl eq_refl eq_refl)).
  split; reflexivity.
Defined.

(** A group whose first page carries a continuation reference: one GET is
    made and the two members of that page come back. *)
Lemma get_group_members_single_page_witness :
  let run := @get_group_members (scripted large_group) "g1" 50 (fresh_state large_group) in
  fst run = Return (PList [record "a1"; record "a2"])
  /\ List.length (gets (trace (snd run))) = 1%nat.
Proof.
  intros run.
  destruct (@get_group_members_single_page (scripted large_group) "g1" 50
              (fresh_state large_group)) as (Heq & evs & Ht & Hn & Hret).
  split; [unfold run; rewrite Heq; reflexivity|].
  destruct (Hret (PList [record "a1"; record "a2"]) eq_refl) as (token & response & Hg & _).
  unfold run. rewrite Ht. change (List.length (gets evs) = 1%nat).
  rewrite Hg. reflexivity.
Defined.

(** [jane@co.com] is a principal name the service knows: resolution
    returns the name itself, not the id [u42] of the record. *)
Lemma resolve_user_id_direct_is_verbatim_witness :
  fst (@_resolve_user_id (scripted jane_direct) "jane@co.com" (fresh_state jane_direct))
    = Return (PStr "jane@co.com")
  /\ map (fun ev => match ev with EvGet url _ _ _ => url | _ => PNone end)
         (gets (trace (snd (@get_user_membership (scripted jane_direct) 1
                              "jane@co.com" None (fresh_state jane_direct)))))
     = [PStr (GRAPH ++ "/users/jane@co.com");
        PStr (GRAPH ++ "/users/jane@co.com/memberOf")].
Proof.
  set (R := scripted jane_direct).
  pose (st1 := snd (@_make_request R "/users/jane@co.com" None None
                      (fresh_state jane_direct))).
  destruct (@resolve_user_id_direct_is_verbatim R "jane@co.com"
              (fresh_state jane_direct) st1 [("id", PStr "u42")] eq_refl)
    as (Hres & Hmem).
  split; [rewrite Hres; reflexivity|].
  rewrite (Hmem 1%nat None). reflexivity.
Defined.

(* ================================================================== *)
(** * Further properties of the query builders *)

Lemma escape_quotes_head (t : string) (rest : string) :
  escape_quotes t <> String dquote rest.
Proof.
  destruct t as [|c t]; simpl; [discriminate|].
  destruct (Ascii.eqb c dquote) eqn:Hc; [discriminate|].
  intros H. inversion H; subst. now rewrite Ascii.eqb_refl in Hc.
Qed.

Lemma unescape_escape (t : string) : unescape_quotes (escape_quotes t) = t.
Proof.
  induction t as [|c t IH]; [reflexivity|].
  cbn [escape_quotes]. destruct (Ascii.eqb c dquote) eqn:Hc.
  - apply Ascii.eqb_eq in Hc. subst c.
    cbn [unescape_quotes]. rewrite !Ascii.eqb_refl. cbn [andb].
    destruct (escape_quotes t) as [|d r] eqn:He.
    + destruct t as [|c' t']; [reflexivity|].
      simpl in He. destruct (Ascii.eqb c' dquote); discriminate.
    + destruct (Ascii.eqb d dquote) eqn:Hd.
      * apply Ascii.eqb_eq in Hd. subst d. now apply escape_quotes_head in He.
      * rewrite andb_false_r. now rewrite IH.
  - cbn [unescape_quotes].
    destruct (escape_quotes t) as [|d r] eqn:He.
    + destruct t as [|c' t']; [reflexivity|].
      simpl in He. destruct (Ascii.eqb c' dquote); discriminate.
    + destruct (Ascii.eqb d dquote) eqn:Hd.
      * apply Ascii.eqb_eq in Hd. subst d. now apply escape_quotes_head in He.
      * rewrite andb_false_r. now rewrite IH.
Qed.

Lemma drop_last_quote_app (s : string) :
  drop_last_quote (s ++ String dquote EmptyString) = Some s.
Proof.
  induction s as [|c s IH]; [reflexivity|].
  cbn [append drop_last_quote]. rewrite IH.
  destruct (s ++ String dquote EmptyString) eqn:He; [|reflexivity].
  destruct s; discriminate.
Qed.

(** The escaping of a search term loses nothing: reading a term back
    gives the token, so two tokens with one term are one token. *)
Theorem quote_term_round_trip :
  (forall t : string, read_term (quote_term t) = Some t)
  /\ (forall t1 t2 : string, quote_term t1 = quote_term t2 -> t1 = t2).
Proof.
  assert (H : forall t : string, read_term (quote_term t) = Some t).
  { intros t. unfold quote_term, read_term. rewrite Ascii.eqb_refl.
    rewrite drop_last_quote_app, replace_escape. simpl. now rewrite unescape_escape. }
  split; [exact H|].
  intros t1 t2 Heq. pose proof (H t1) as H1. rewrite Heq, H in H1. now inversion H1.
Qed.

Lemma quote_term_round_trip_witness :
  quote_term (String dquote "a") = quote_term (String dquote "a")
  /\ read_term (quote_term (String backslash (String dquote "a")))
     = Some (String backslash (String dquote "a")).
Proof.
  split; [reflexivity|].
  exact (proj1 quote_term_round_trip (String backslash (String dquote "a"))).
Defined.

Lemma undouble_replace (s : string) : undouble (replace "'"%char "''" s) = Some s.
Proof.
  induction s as [|c s IH]; [reflexivity|].
  cbn [replace]. destruct (Ascii.eqb c "'"%char) eqn:Hc.
  - apply Ascii.eqb_eq in Hc. subst c. cbn. now rewrite IH.
  - cbn [undouble]. rewrite Hc, IH. reflexivity.
Qed.

Lemma replace_empty (s : string) :
  str_truthy (replace "'"%char "''" s) = str_truthy s.
Proof. destruct s as [|c s]; [reflexivity|]. simpl. now destruct (Ascii.eqb c "'"%char). Qed.

Lemma lstrip_replace (s : string) :
  lstrip (replace "'"%char "''" s) = replace "'"%char "''" (lstrip s).
Proof.
  induction s as [|c s IH]; [reflexivity|].
  cbn [replace lstrip]. destruct (Ascii.eqb c "'"%char) eqn:Hc.
  - apply Ascii.eqb_eq in Hc. subst c. reflexivity.
  - cbn [lstrip]. destruct (is_space c); [exact IH|].
    cbn [replace]. now rewrite Hc.
Qed.

Lemma rstrip_replace (s : string) :
  rstrip (replace "'"%char "''" s) = replace "'"%char "''" (rstrip s).
Proof.
  induction s as [|c s IH]; [reflexivity|].
  cbn [replace rstrip]. destruct (Ascii.eqb c "'"%char) eqn:Hc.
  - apply Ascii.eqb_eq in Hc. subst c.
    change (is_space "'"%char) with false. cbn [andb append rstrip].
    change (is_space "'"%char) with false. cbn [andb].
    rewrite IH. cbn [replace]. reflexivity.
  - cbn [rstrip]. rewrite IH, replace_empty.
    destruct (is_space c && negb (str_truthy (rstrip s))); [reflexivity|].
    cbn [replace]. now rewrite Hc.
Qed.

(** The sanitizing of a query is the doubling of the single quotes of the
    trimmed query, and loses nothing of it: read as the inside of an OData
    string literal, the sanitized query is the trimmed query again (no
    quote of the query ends the literal of the fallback filter). *)
Theorem sanitize_round_trip (query : string) :
  sanitize query = replace "'"%char "''" (strip query)
  /\ undouble (sanitize query) = Some (strip query).
Proof.
  assert (H : sanitize query = replace "'"%char "''" (strip query)).
  { unfold sanitize, strip. now rewrite lstrip_replace, rstrip_replace. }
  split; [exact H|]. rewrite H. apply undouble_replace.
Qed.

Lemma build_by_words (raw : string) :
  _build_and_search_query raw =
  match words raw with
  | [] => String dquote (strip raw ++ String dquote EmptyString)
  | tokens => join " AND " (map quote_term tokens)
  end.
Proof.
  unfold _build_and_search_query.
  rewrite split_words, (comprehension_id _ (words_no_space raw)).
  destruct (words raw); reflexivity.
Qed.

Lemma words_nil_lstrip (s : string) : words s = [] -> lstrip s = EmptyString.
Proof.
  unfold words. induction s as [|c s IH]; [reflexivity|]. simpl.
  destruct (is_space c); simpl; [exact IH|].
  destruct (fields s); simpl; discriminate.
Qed.

Lemma words_lstrip (s : string) : words (lstrip s) = words s.
Proof.
  unfold words. induction s as [|c s IH]; [reflexivity|]. simpl.
  destruct (is_space c) eqn:Hc; simpl; [exact IH|]. now rewrite Hc.
Qed.

(** Trimming on the right only removes empty fields at the end. *)
Lemma fields_rstrip (s : string) :
  exists k, fields s = (fields (rstrip s) ++ repeat EmptyString k)%list.
Proof.
  induction s as [|c s (k & IH)]; [now exists 0%nat|].
  cbn [rstrip fields]. destruct (is_space c) eqn:Hc; cbn [andb].
  - destruct (rstrip s) as [|d r] eqn:Hr; cbn [str_truthy negb].
    + exists (S k). rewrite IH. reflexivity.
    + exists k. cbn [fields]. rewrite Hc, IH. reflexivity.
  - exists k. cbn [fields]. rewrite Hc, IH.
    destruct (fields (rstrip s)) as [|f fs] eqn:Hf; [now apply fields_not_nil in Hf|].
    reflexivity.
Qed.

Lemma words_rstrip (s : string) : words (rstrip s) = words s.
Proof.
  unfold words. destruct (fields_rstrip s) as (k & ->).
  rewrite filter_app.
  assert (H : filter str_truthy (repeat EmptyString k) = []).
  { induction k; [reflexivity | exact IHk]. }
  now rewrite H, app_nil_r.
Qed.

Lemma words_strip (s : string) : words (strip s) = words s.
Proof. unfold strip. now rewrite words_rstrip, words_lstrip. Qed.

Lemma strip_strip_of_no_words (s : string) : words s = [] -> strip s = EmptyString.
Proof. intros H. unfold strip. now rewrite (words_nil_lstrip s H). Qed.

(** How the input is spaced does not matter to the search expression:
    two inputs with the same whitespace-separated words have the same
    expression; in particular whitespace around the input is ignored. *)
Theorem search_expression_by_words :
  (forall a b : string,
     words a = words b ->
     _build_and_search_query a = _build_and_search_query b)
  /\ (forall raw : string,
        _build_and_search_query (strip raw) = _build_and_search_query raw).
Proof.
  assert (H : forall a b : string,
             words a = words b ->
             _build_and_search_query a = _build_and_search_query b).
  { intros a b Hw. rewrite !build_by_words, <- Hw.
    destruct (words a) eqn:Ha; [|reflexivity].
    symmetry in Hw. now rewrite (strip_strip_of_no_words a Ha), (strip_strip_of_no_words b Hw). }
  split; [exact H|]. intros raw. apply H, words_strip.
Qed.

Lemma search_expression_by_words_witness :
  _build_and_search_query "john   doe" = _build_and_search_query " john doe ".
Proof. exact (proj1 search_expression_by_words "john   doe" " john doe " eq_refl). Defined.

(* ================================================================== *)
(** * Further properties of the pagination collector *)

Section CollectorBounds.
Context {R : Runtime}.

Lemma collect_paged_within_limit fuel endpoint params hdrs n st page st' :
  (0 <= n)%Z ->
  _collect_paged fuel endpoint params hdrs (Some n) st = (Return page, st') ->
  exists items c,
    page = [("value", PList items); ("count", c)] /\
    (Z.of_nat (List.length items) <= n)%Z.
Proof.
  intros Hn. unfold _collect_paged, bind.
  destruct (_make_request endpoint (Some params) (Some hdrs) st)
    as [[first|e|] st1]; try discriminate.
  destruct (lift (py_iter (dict_get first "value" (PList []))) st1)
    as [[items|e|] st2]; try discriminate.
  destruct (collect_loop fuel hdrs (Some n) items
              (dict_get first "@odata.nextLink" PNone) st2)
    as [[items'|e|] st3]; try discriminate.
  unfold ret. intros H. inversion H; subst.
  eexists _, _. split; [reflexivity|].
  rewrite (slice_to_truncate n items' Hn), length_firstn. lia.
Qed.

(** However the service pages its answer, a collector run with a limit
    that is not negative returns at most that many items; so do
    [search_users] and [search_groups], whether the result comes from the
    [$search] fetch or from the [$filter] fallback. *)
Theorem results_within_limit :
  (forall fuel endpoint params hdrs (n : Z) (st st' : mstate) (page : dict),
     (0 <= n)%Z ->
     _collect_paged fuel endpoint params hdrs (Some n) st = (Return page, st') ->
     exists items,
       dict_get page "value" (PList []) = PList items /\
       (Z.of_nat (List.length items) <= n)%Z)
  /\
  (forall fuel query (limit : Z) (st st' : mstate) (result : dict),
     (0 <= limit)%Z ->
     search_users fuel query limit st = (Return result, st') ->
     exists users,
       dict_get result "users" (PList []) = PList users /\
       (Z.of_nat (List.length users) <= limit)%Z)
  /\
  (forall fuel query (limit : Z) (st st' : mstate) (result : dict),
     (0 <= limit)%Z ->
     search_groups fuel query limit st = (Return result, st') ->
     exists groups,
       dict_get result "groups" (PList []) = PList groups /\
       (Z.of_nat (List.length groups) <= limit)%Z).
Proof.
  split; [|split].
  - intros fuel endpoint params hdrs n st st' page Hn Hrun.
    destruct (collect_paged_within_limit _ _ _ _ _ _ _ _ Hn Hrun)
      as (items & c & -> & Hlen).
    exists items. split; [reflexivity | exact Hlen].
  - intros fuel query limit st st' result Hn.
    unfold search_users, try_except. unfold bind at 1.
    match goal with
    | |- context [_collect_paged fuel "/users" ?p ?h (Some limit) st] =>
        destruct (_collect_paged fuel "/users" p h (Some limit) st)
          as [[page|e|] st1] eqn:Hprimary
    end.
    + destruct (collect_paged_within_limit _ _ _ _ _ _ _ _ Hn Hprimary)
        as (items & c & -> & Hlen).
      cbn. intros H. inversion H; subst. exists items. split; [reflexivity | exact Hlen].
    + unfold bind at 1.
      match goal with
      | |- context [_collect_paged fuel "/users" ?p ?h (Some limit) st1] =>
          destruct (_collect_paged fuel "/users" p h (Some limit) st1)
            as [[page|e2|] st2] eqn:Hfallback
      end; try discriminate.
      destruct (collect_paged_within_limit _ _ _ _ _ _ _ _ Hn Hfallback)
        as (items & c & -> & Hlen).
      cbn. intros H. inversion H; subst. exists items. split; [reflexivity | exact Hlen].
    + discriminate.
  - intros fuel query limit st st' result Hn.
    unfold search_groups, try_except. unfold bind at 1.
    match goal with
    | |- context [_collect_paged fuel "/groups" ?p ?h (Some limit) st] =>
        destruct (_collect_paged fuel "/groups" p h (Some limit) st)
          as [[page|e|] st1] eqn:Hprimary
    end.
    + destruct (collect_paged_within_limit _ _ _ _ _ _ _ _ Hn Hprimary)
        as (items & c & -> & Hlen).
      cbn. intros H. inversion H; subst. exists items. split; [reflexivity | exact Hlen].
    + unfold bind at 1.
      match goal with
      | |- context [_collect_paged fuel "/groups" ?p ?h (Some limit) st1] =>
          destruct (_collect_paged fuel "/groups" p h (Some limit) st1)
            as [[page|e2|] st2] eqn:Hfallback
      end; try discriminate.
      destruct (collect_paged_within_limit _ _ _ _ _ _ _ _ Hn Hfallback)
        as (items & c & -> & Hlen).
      cbn. intros H. inversion H; subst. exists items. split; [reflexivity | exact Hlen].
    + discriminate.
Qed.

(** When the first page alone holds as many items as the limit asks for,
    the collector makes no continuation request (whatever fuel it has,
    and even if the page names a next one): it returns the first [n] items
    of that page, with its count hint, in the state the first request
    left. A limit of 0 gives the empty list after one request. *)
Theorem collect_paged_first_page_suffices
    (fuel : nat) (endpoint : string) (params : dict)
    (hdrs : list (string * string)) (n : Z) (st st1 : mstate) (first : dict) :
  (0 <= n)%Z ->
  _make_request endpoint (Some params) (Some hdrs) st = (Return first, st1) ->
  iterable first = true ->
  (n <= Z.of_nat (List.length (items_of first)))%Z ->
  _collect_paged fuel endpoint params hdrs (Some n) st =
    (Return [("value", PList (firstn (Z.to_nat n) (items_of first)));
             ("count", count_hint first)], st1).
Proof.
  intros Hn Hfirst Hit Hlen. unfold _collect_paged.
  rewrite (bind_return _ _ _ _ _ Hfirst).
  rewrite (iterable_items first Hit). unfold lift.
  rewrite (bind_return _ _ _ st1 (items_of first)) by reflexivity.
  rewrite (bind_return _ _ _ st1 (items_of first)).
  - unfold ret. now rewrite (slice_to_truncate n (items_of first) Hn).
  - apply collect_loop_stop. simpl.
    destruct (Z.ltb_spec (Z.of_nat (List.length (items_of first))) n); [lia|].
    apply andb_false_r.
Qed.

End CollectorBounds.

Lemma results_within_limit_witness :
  exists users,
    dict_get (match fst (@search_users (scripted three_pages) 2 "x" 5
                           (fresh_state three_pages)) with
              | Return result => result
              | _ => []
              end) "users" (PList []) = PList users
    /\ (Z.of_nat (List.length users) <= 5)%Z.
Proof.
  exact (proj1 (proj2 (@results_within_limit (scripted three_pages)))
           2%nat "x" 5%Z (fresh_state three_pages)
           (snd (@search_users (scripted three_pages) 2 "x" 5 (fresh_state three_pages)))
           _ ltac:(lia) eq_refl).
Defined.

Lemma collect_paged_first_page_suffices_witness :
  let run := @_collect_paged (scripted three_pages) 0 "/users"
               [("$search", PStr "x")] [("ConsistencyLevel", "eventual")]
               (Some 3%Z) (fresh_state three_pages) in
  fst run = Return [("value", PList [record "a1"; record "a2"; record "a3"]);
                    ("count", PInt 9)]
  /\ List.length (gets (trace (snd run))) = 1%nat.
Proof.
  intros run. unfold run.
  rewrite (@collect_paged_first_page_suffices (scripted three_pages) 0 "/users"
             [("$search", PStr "x")] [("ConsistencyLevel", "eventual")] 3
             (fresh_state three_pages)
             (snd (@_make_request (scripted three_pages) "/users"
                     (Some [("$search", PStr "x")])
                     (Some [("ConsistencyLevel", "eventual")])
                     (fresh_state three_pages)))
             [("value", PList [record "a1"; record "a2"; record "a3"]);
              ("@odata.count", PInt 9);
              ("@odata.nextLink", PStr "page2")]
             ltac:(lia) eq_refl eq_refl ltac:(simpl; lia)).
  split; reflexivity.
Defined.

Section CollectorTermination.
Context {R : Runtime}.

Lemma get_token_comes_back : comes_back _get_token.
Proof.
  intros st. unfold _get_token, bind, read_token.
  destruct (negb (token_truthy (_token (self st)))); [|discriminate].
  unfold call_get_token.
  destruct (credential_get_token (credential (self st))
              "https://graph.microsoft.com/.default" (world st)) as [[e|t] w];
    simpl; discriminate.
Qed.

Lemma fetch_next_comes_back hdrs link : comes_back (fetch_next hdrs link).
Proof.
  unfold fetch_next. apply comes_back_bind; [apply get_token_comes_back|].
  intros token st. unfold _get_next_link, call_httpx_get.
  destruct (httpx_get link _ None (world st)) as [[e|d] w]; simpl; discriminate.
Qed.

Lemma collect_loop_cycle hdrs link d :
  truthy link = true ->
  (forall s, exists s', fetch_next hdrs link s = (Return d, s')) ->
  next_link d = link ->
  iterable d = true ->
  forall fuel items st,
    fst (collect_loop fuel hdrs None items link st) = Diverge.
Proof.
  intros Hlink Hfetch Hnext Hit. induction fuel as [|fuel IH]; intros items st.
  - simpl. now rewrite Hlink.
  - rewrite collect_loop_step by (now rewrite Hlink).
    destruct (Hfetch st) as (s' & Hs).
    rewrite (bind_return _ _ _ _ _ Hs).
    rewrite (iterable_items d Hit). unfold lift.
    rewrite (bind_return _ _ _ s' (items_of d)) by reflexivity.
    rewrite Hnext. apply IH.
Qed.

(** The collector has no guard against a service that pages in a circle:
    with no limit set, if the continuation reference of the first page
    leads to a page that names that same reference again, the loop never
    ends, whatever the fuel. *)
Theorem collect_paged_cycle_never_returns
    (fuel : nat) (endpoint : string) (params : dict)
    (hdrs : list (string * string)) (st st1 : mstate) (first d : dict) :
  _make_request endpoint (Some params) (Some hdrs) st = (Return first, st1) ->
  iterable first = true ->
  truthy (next_link first) = true ->
  (forall s, exists s', fetch_next hdrs (next_link first) s = (Return d, s')) ->
  next_link d = next_link first ->
  iterable d = true ->
  fst (_collect_paged fuel endpoint params hdrs None st) = Diverge.
Proof.
  intros Hfirst Hit Hlink Hfetch Hnext Hitd. unfold _collect_paged.
  rewrite (bind_return _ _ _ _ _ Hfirst).
  rewrite (iterable_items first Hit). unfold lift.
  rewrite (bind_return _ _ _ st1 (items_of first)) by reflexivity.
  pose proof (collect_loop_cycle hdrs (next_link first) d Hlink Hfetch Hnext Hitd
                fuel (items_of first) st1) as Hloop.
  unfold next_link in Hloop at 1. unfold bind.
  destruct (collect_loop fuel hdrs None (items_of first)
              (dict_get first "@odata.nextLink" PNone) st1) as [[a|e|] s];
    simpl in Hloop; try discriminate. reflexivity.
Qed.

Lemma collect_loop_within_limit hdrs n :
  (forall link s d s',
     fetch_next hdrs link s = (Return d, s') ->
     iterable d = true -> items_of d <> []) ->
  forall fuel items link st,
    (Z.to_nat n <= fuel + List.length items)%nat ->
    fst (collect_loop fuel hdrs (Some n) items link st) <> Diverge.
Proof.
  intros Hpages. induction fuel as [|fuel IH]; intros items link st Hfuel.
  - rewrite collect_loop_stop; [discriminate|]. simpl.
    destruct (Z.ltb_spec (Z.of_nat (List.length items)) n); [lia|].
    apply andb_false_r.
  - destruct (truthy link && below_limit (Some n) items) eqn:Hc.
    + rewrite collect_loop_step by exact Hc.
      pose proof (fetch_next_comes_back hdrs link st) as Hcb.
      unfold bind at 1.
      destruct (fetch_next hdrs link st) as [[d|e|] s'] eqn:Hf; simpl in Hcb;
        [| discriminate | congruence].
      destruct (py_iter (dict_get d "value" (PList []))) as [e|more] eqn:Hiter.
      * simpl. discriminate.
      * assert (Hit : iterable d = true).
        { unfold iterable, page_value. now rewrite Hiter. }
        assert (Hmore : more = items_of d).
        { unfold items_of, page_value. now rewrite Hiter. }
        pose proof (Hpages link st d s' Hf Hit) as Hne.
        unfold lift. rewrite (bind_return _ _ _ s' more) by reflexivity.
        apply IH. rewrite length_app. subst more.
        destruct (items_of d); [congruence | simpl; lia].
    + rewrite collect_loop_stop by exact Hc. discriminate.
Qed.

(** With a limit set and a service whose continuation pages are never
    empty, the loop of the collector ends after at most [limit]
    iterations: fuel for that many is enough for [_collect_paged] to come
    back (with a result or an exception). *)
Theorem collect_paged_limit_bounds_loop
    (fuel : nat) (endpoint : string) (params : dict)
    (hdrs : list (string * string)) (n : Z) (st : mstate) :
  (forall link s d s',
     fetch_next hdrs link s = (Return d, s') ->
     iterable d = true -> items_of d <> []) ->
  (Z.to_nat n <= fuel)%nat ->
  fst (_collect_paged fuel endpoint params hdrs (Some n) st) <> Diverge.
Proof.
  intros Hpages Hfuel. unfold _collect_paged.
  pose proof (make_request_total endpoint (Some params) (Some hdrs) st) as Hreq.
  unfold bind at 1.
  destruct (_make_request endpoint (Some params) (Some hdrs) st)
    as [[first|e|] st1]; simpl in Hreq; [| discriminate | congruence].
  destruct (py_iter (dict_get first "value" (PList []))) as [e|items];
    [simpl; discriminate|].
  unfold lift. rewrite (bind_return _ _ _ st1 items) by reflexivity.
  pose proof (collect_loop_within_limit hdrs n Hpages fuel items
                (dict_get first "@odata.nextLink" PNone) st1 ltac:(lia)) as Hloop.
  unfold bind.
  destruct (collect_loop fuel hdrs (Some n) items
              (dict_get first "@odata.nextLink" PNone) st1) as [[a|e|] s];
    simpl in *; [discriminate | discriminate | congruence].
Qed.

End CollectorTermination.

(** What a scripted service answers to a continuation request, whatever
    the state of the client. *)
Lemma scripted_fetch_next (table : list (string * (exn + dict)))
    (hdrs : list (string * string)) (link : pyval) (s : @mstate (scripted table)) :
  fst (@fetch_next (scripted table) hdrs link s) =
  match dict_get table (request_key link None) (inl not_found) with
  | inl e => Raise e
  | inr d => Return d
  end.
Proof.
  destruct s as [c w tr]. destruct c as [tid cid sec cred base tok].
  destruct tok as [[|a t]|];
    cbv [fetch_next bind _get_token read_token write_token ret call_get_token
         _get_next_link call_httpx_get token_truthy str_truthy negb self world
         trace _token credential set_token tenant_id client_id client_secret
         base_url credential_get_token httpx_get scripted fst snd];
    destruct (dict_get table (request_key link None) (inl not_found)); reflexivity.
Qed.

Lemma collect_paged_cycle_never_returns_witness :
  fst (@_collect_paged (scripted looping) 1000 "/users"
         [("$search", PStr "x")] [("ConsistencyLevel", "eventual")] None
         (fresh_state looping)) = Diverge.
Proof.
  apply (@collect_paged_cycle_never_returns (scripted looping) 1000 "/users"
           [("$search", PStr "x")] [("ConsistencyLevel", "eventual")]
           (fresh_state looping)
           (snd (@_make_request (scripted looping) "/users"
                   (Some [("$search", PStr "x")])
                   (Some [("ConsistencyLevel", "eventual")]) (fresh_state looping)))
           [("value", PList [record "a1"]); ("@odata.nextLink", PStr "again")]
           [("value", PList [record "a2"]); ("@odata.nextLink", PStr "again")]);
    try reflexivity.
  intros s. exists (snd (@fetch_next (scripted looping)
                           [("ConsistencyLevel", "eventual")] (PStr "again") s)).
  pose proof (scripted_fetch_next looping [("ConsistencyLevel", "eventual")]
                (PStr "again") s) as H.
  change (next_link [("value", PList [record "a1"]);
                     ("@odata.nextLink", PStr "again")]) with (PStr "again").
  simpl in H. rewrite <- H. apply surjective_pairing.
Defined.

Lemma collect_paged_limit_bounds_loop_witness :
  fst (@_collect_paged (scripted three_pages) 5 "/users"
         [("$search", PStr "x")] [("ConsistencyLevel", "eventual")] (Some 5%Z)
         (fresh_state three_pages)) <> Diverge.
Proof.
  apply (@collect_paged_limit_bounds_loop (scripted three_pages) 5 "/users"
           [("$search", PStr "x")] [("ConsistencyLevel", "eventual")] 5
           (fresh_state three_pages)); [|simpl; lia].
  intros link s d s' Hfetch _.
  pose proof (scripted_fetch_next three_pages [("ConsistencyLevel", "eventual")]
                link s) as H.
  rewrite Hfetch in H. cbv [fst three_pages dict_get] in H.
  repeat match type of H with
         | context [String.eqb ?k (request_key link None)] =>
             destruct (String.eqb k (request_key link None));
             [inversion H; subst; vm_compute; discriminate|]
         end.
  discriminate.
Defined.

(* ================================================================== *)
(** * The cached token *)

Lemma dict_get_set_same {A : Type} (d : list (string * A)) (k : string) (v x : A) :
  dict_get (dict_set d k v) k x = v.
Proof.
  induction d as [|[k' v'] d IH]; simpl; [now rewrite String.eqb_refl|].
  destruct (String.eqb k' k) eqn:Hk; simpl; rewrite Hk; [reflexivity | exact IH].
Qed.

Lemma dict_get_set_other {A : Type} (d : list (string * A)) (k k' : string) (v x : A) :
  String.eqb k k' = false ->
  dict_get (dict_set d k v) k' x = dict_get d k' x.
Proof.
  intros Hne. induction d as [|[k0 v0] d IH]; simpl; [now rewrite Hne|].
  destruct (String.eqb k0 k) eqn:Hk; simpl.
  - apply String.eqb_eq in Hk. subst k0. now rewrite Hne.
  - now rewrite IH.
Qed.

Lemma dict_get_update_absent {A : Type} (extra d : list (string * A)) (k : string) (x : A) :
  has_key k extra = false ->
  dict_get (dict_update d extra) k x = dict_get d k x.
Proof.
  unfold dict_update. revert d. induction extra as [|[k0 v0] extra IH]; intros d H;
    [reflexivity|].
  simpl in *. apply orb_false_iff in H as [Hk H].
  rewrite (IH _ H). now apply dict_get_set_other.
Qed.

Section TokenReuseProofs.
Context {R : Runtime}.

Lemma reuses_silent (t : string) {A : Type} (m : M mstate A) :
  (forall st, snd (m st) = st) -> reuses t m.
Proof.
  intros H st _. rewrite H. split; [reflexivity|].
  exists []. now rewrite app_nil_r.
Qed.

Lemma reuses_bind (t : string) {A B : Type} (m : M mstate A) (k : A -> M mstate B) :
  reuses t m -> (forall a, reuses t (k a)) -> reuses t (bind m k).
Proof.
  intros Hm Hk st Ht. destruct (Hm st Ht) as (Hs & evs & He & Hall).
  unfold bind. destruct (m st) as [[a|e|] st1]; simpl in *; eauto.
  assert (Ht1 : _token (self st1) = Some t) by (now rewrite Hs).
  destruct (Hk a st1 Ht1) as (Hs2 & evs2 & He2 & Hall2).
  split; [congruence|]. exists (evs ++ evs2)%list.
  split; [now rewrite He2, He, app_assoc | now apply Forall_app].
Qed.

Lemma reuses_try_except (t : string) {A : Type} (m : M mstate A)
    (h : exn -> M mstate A) :
  reuses t m -> (forall e, reuses t (h e)) -> reuses t (try_except m h).
Proof.
  intros Hm Hh st Ht. destruct (Hm st Ht) as (Hs & evs & He & Hall).
  unfold try_except. destruct (m st) as [[a|e|] st1]; simpl in *; eauto.
  assert (Ht1 : _token (self st1) = Some t) by (now rewrite Hs).
  destruct (Hh e st1 Ht1) as (Hs2 & evs2 & He2 & Hall2).
  split; [congruence|]. exists (evs ++ evs2)%list.
  split; [now rewrite He2, He, app_assoc | now apply Forall_app].
Qed.

Lemma reuses_ret (t : string) {A : Type} (a : A) : reuses t (ret a).
Proof. now apply reuses_silent. Qed.

Lemma reuses_lift (t : string) {A : Type} (r : exn + A) : reuses t (lift r).
Proof. apply reuses_silent. now destruct r. Qed.

Lemma get_token_held (st : mstate) (t : string) :
  _token (self st) = Some t -> str_truthy t = true ->
  _get_token st = (Return t, st).
Proof.
  intros Ht Htr. unfold _get_token, bind, read_token.
  rewrite Ht. simpl. now rewrite Htr.
Qed.

Lemma reuses_httpx_get (t : string) url headers params :
  dict_get headers "Authorization" EmptyString = "Bearer " ++ t ->
  reuses t (call_httpx_get url headers params).
Proof.
  intros Hh st _. unfold call_httpx_get.
  destruct (httpx_get url headers params (world st)) as [[e|d] w]; simpl;
    (split; [reflexivity|]); eexists; (split; [reflexivity|]);
    repeat constructor; exact Hh.
Qed.

(** With the token [t] held, [_get_token] yields [t] and the rest of the
    method goes on with it. *)
Lemma reuses_with_token (t : string) {A : Type} (k : string -> M mstate A) :
  str_truthy t = true -> reuses t (k t) -> reuses t (bind _get_token k).
Proof.
  intros Htr Hk st Ht.
  rewrite (bind_return _ _ _ _ _ (get_token_held st t Ht Htr)). now apply Hk.
Qed.

Lemma reuses_make_request endpoint params extra_headers :
  has_key "Authorization"
    (match extra_headers with Some eh => eh | None => [] end) = false ->
  reuses_token (_make_request endpoint params extra_headers).
Proof.
  intros Hk t Htr. unfold _make_request. apply reuses_with_token; [exact Htr|].
  apply reuses_bind; [now apply reuses_silent|]. intros base.
  apply reuses_httpx_get.
  destruct extra_headers as [[|kv more]|]; try reflexivity.
  now rewrite (dict_get_update_absent _ _ _ _ Hk).
Qed.

Lemma reuses_collect_loop fuel hdrs limit items link :
  reuses_token (collect_loop fuel hdrs limit items link).
Proof.
  intros t Htr. revert items link.
  induction fuel as [|fuel IH]; intros items link; simpl;
    destruct (truthy link && below_limit limit items);
    try (now apply reuses_silent).
  apply reuses_with_token; [exact Htr|].
  apply reuses_bind.
  - apply reuses_httpx_get.
    rewrite dict_get_set_other by reflexivity. apply dict_get_set_same.
  - intros page. apply reuses_bind; [apply reuses_lift|]. intros more. apply IH.
Qed.

Lemma reuses_collect_paged fuel endpoint params hdrs limit :
  has_key "Authorization" hdrs = false ->
  reuses_token (_collect_paged fuel endpoint params hdrs limit).
Proof.
  intros Hk t Htr. unfold _collect_paged.
  apply reuses_bind; [now apply (reuses_make_request _ _ (Some hdrs))|].
  intros first_page. apply reuses_bind; [apply reuses_lift|]. intros items.
  apply reuses_bind; [now apply reuses_collect_loop|]. intros items'.
  apply reuses_ret.
Qed.

Lemma reuses_resolve_user_id identifier : reuses_token (_resolve_user_id identifier).
Proof.
  intros t Htr. unfold _resolve_user_id. apply reuses_try_except.
  - apply reuses_bind; [now apply (reuses_make_request _ None None)|].
    intros _. apply reuses_ret.
  - intros _. apply reuses_bind.
    + apply reuses_try_except; [|intros _; apply reuses_ret].
      apply reuses_bind; [now apply (reuses_make_request _ _ None)|].
      intros res. destruct (truthy (dict_get res "value" (PList [])));
        [|apply reuses_ret].
      apply reuses_bind; [apply reuses_lift|]. intros first.
      apply reuses_bind; [apply reuses_lift|]. intros id. apply reuses_ret.
    + intros [v|]; apply reuses_ret.
Qed.

Lemma reuses_search_users fuel query limit :
  reuses_token (search_users fuel query limit).
Proof.
  intros t Htr. unfold search_users.
  apply reuses_try_except; [|intros _];
    (apply reuses_bind; [now apply reuses_collect_paged|]; intros page;
     apply reuses_bind; [apply reuses_lift|]; intros n; apply reuses_ret).
Qed.

Lemma reuses_search_groups fuel query limit :
  reuses_token (search_groups fuel query limit).
Proof.
  intros t Htr. unfold search_groups.
  apply reuses_try_except; [|intros _];
    (apply reuses_bind; [now apply reuses_collect_paged|]; intros page;
     apply reuses_bind; [apply reuses_lift|]; intros n; apply reuses_ret).
Qed.

Lemma reuses_get_user_membership fuel identifier limit :
  reuses_token (get_user_membership fuel identifier limit).
Proof.
  intros t Htr. unfold get_user_membership.
  apply reuses_bind; [now apply reuses_resolve_user_id|]. intros resolved.
  apply reuses_bind; [now apply reuses_collect_paged|]. intros page.
  apply reuses_ret.
Qed.

Lemma reuses_get_group_members group_id limit :
  reuses_token (get_group_members group_id limit).
Proof.
  intros t Htr. unfold get_group_members.
  apply reuses_bind; [now apply (reuses_make_request _ _ None)|].
  intros response. apply reuses_ret.
Qed.

(** Run on a client that holds a non-empty token, no method of the client
    calls the credential provider or changes the client: the token held is
    the bearer token of every request the method sends (first pages and
    continuation pages alike), however long ago it was obtained. *)
Theorem cached_token_is_reused :
  (forall fuel endpoint params hdrs limit,
     has_key "Authorization" hdrs = false ->
     reuses_token (_collect_paged fuel endpoint params hdrs limit))
  /\ (forall fuel query limit, reuses_token (search_users fuel query limit))
  /\ (forall fuel query limit, reuses_token (search_groups fuel query limit))
  /\ (forall identifier, reuses_token (_resolve_user_id identifier))
  /\ (forall fuel identifier limit,
        reuses_token (get_user_membership fuel identifier limit))
  /\ (forall group_id limit, reuses_token (get_group_members group_id limit)).
Proof.
  split; [exact reuses_collect_paged|].
  split; [exact reuses_search_users|].
  split; [exact reuses_search_groups|].
  split; [exact reuses_resolve_user_id|].
  split; [exact reuses_get_user_membership | exact reuses_get_group_members].
Qed.

End TokenReuseProofs.

Section ToolTokenReuse.
Context {R : Runtime}.

Lemma tool_reuses_of_shape {A : Type} (prefix : string) (m : M mstate A)
    (body : A -> M proc string) :
  reuses_token m ->
  (forall a p, snd (body a p) = p) ->
  tool_reuses_token
    (try_except (client <- get_entra_client ;; a <- on_client client m ;; body a)
                (fun e => ret (prefix ++ exn_str e))).
Proof.
  intros Hm Hb p c t Hc Ht Htr.
  destruct (Hm t Htr {| self := c; world := p_world p; trace := p_trace p |} Ht)
    as (Hs & evs & He & Hall).
  unfold try_except, bind, get_entra_client, on_client. rewrite Hc.
  destruct (m {| self := c; world := p_world p; trace := p_trace p |})
    as [[a|e|] st1]; simpl in *.
  - pose proof (Hb a {| entra_client := Some (self st1); p_world := world st1;
                        p_trace := trace st1 |}) as Hp.
    destruct (body a _) as [[s|e|] p2]; simpl in *; subst p2; simpl;
      (split; [now rewrite Hs | exists evs; now split]).
  - split; [now rewrite Hs | exists evs; now split].
  - split; [now rewrite Hs | exists evs; now split].
Qed.

(** Once the global client holds a non-empty token, a tool call never
    asks the credential provider again: it leaves the global client as it
    is and every request it sends carries that same token (the token is
    never renewed). *)
Theorem tools_reuse_cached_token
    (fuel : nat) (query : string) (max_results : Z) (identifier : string) :
  tool_reuses_token (search_entra_users fuel query max_results)
  /\ tool_reuses_token (search_entra_groups fuel query max_results)
  /\ tool_reuses_token (get_user_group_membership fuel identifier)
  /\ tool_reuses_token (get_group_members_tool identifier max_results).
Proof.
  split; [|split; [|split]].
  - apply (tool_reuses_of_shape "Error searching users: ");
      [apply reuses_search_users|].
    intros a p. unfold bind, lift.
    destruct (py_len (dict_get a "users" (PList []))) as [e|n]; [reflexivity|]. simpl.
    destruct (py_int (dict_get a "total_count" (PInt n))); reflexivity.
  - apply (tool_reuses_of_shape "Error searching groups: ");
      [apply reuses_search_groups|].
    intros a p. unfold bind, lift.
    destruct (py_len (dict_get a "groups" (PList []))) as [e|n]; [reflexivity|]. simpl.
    destruct (py_int (dict_get a "total_count" (PInt n))); reflexivity.
  - apply (tool_reuses_of_shape "Error getting user membership: ");
      [apply reuses_get_user_membership|].
    intros a p. unfold bind, lift. destruct (py_len a); reflexivity.
  - apply (tool_reuses_of_shape "Error getting group members: ");
      [apply reuses_get_group_members|].
    intros a p. unfold bind, lift. destruct (py_len a); reflexivity.
Qed.

End ToolTokenReuse.

Lemma cached_token_is_reused_witness :
  let st0 := holding (jane_by_mail "u42") "cached" in
  let run := @get_user_membership (scripted (jane_by_mail "u42")) 1 "jane@co.com" None
               st0 in
  self (snd run) = self st0
  /\ exists evs,
       trace (snd run) = (trace st0 ++ evs)%list
       /\ Forall (bearer_get "cached") evs.
Proof.
  exact (proj1 (proj2 (proj2 (proj2 (proj2
           (@cached_token_is_reused (scripted (jane_by_mail "u42")))))))
           1%nat "jane@co.com" None "cached" eq_refl
           (holding (jane_by_mail "u42") "cached") eq_refl).
Defined.

Lemma tools_reuse_cached_token_witness :
  let p0 := proc_holding large_group "cached" in
  let run := @get_group_members_tool (scripted large_group) "g1" 50 p0 in
  entra_client (snd run) = entra_client p0
  /\ exists evs,
       p_trace (snd run) = (p_trace p0 ++ evs)%list
       /\ Forall (bearer_get "cached") evs.
Proof.
  exact (proj2 (proj2 (proj2
           (@tools_reuse_cached_token (scripted large_group) 1 "x" 50 "g1")))
           (proc_holding large_group "cached") _ "cached" eq_refl eq_refl eq_refl).
Defined.

(* ================================================================== *)
(** * The construction of the client *)

Section Construction.
Context {R : Runtime}.

Lemma env_truthy_some (v : option string) :
  env_truthy v = true -> v = Some (env_str v) /\ str_truthy (env_str v) = true.
Proof. destruct v as [s|]; simpl; [auto | discriminate]. Qed.

Lemma init_missing (w : World) :
  env_truthy (os_getenv w "ENTRA_TENANT_ID")
  && env_truthy (os_getenv w "ENTRA_CLIENT_ID")
  && env_truthy (os_getenv w "ENTRA_CLIENT_SECRET") = false ->
  EntraClient_init w = inl (ValueError MISSING_VARIABLES).
Proof. intros H. unfold EntraClient_init. now rewrite H. Qed.

(** [EntraClient()] succeeds only when each of the three environment
    variables is set to a non-empty string, and then the client carries
    their values, the Graph v1.0 base URL and no token; a variable that is
    unset or empty makes it raise the [ValueError] that names the three.
    [get_entra_client] builds the client at most once: the client it
    returned is the one every later call returns, without the environment
    being read again; a failed construction leaves no client behind. *)
Theorem client_construction :
  (forall (w : World) (c : EntraClient),
     EntraClient_init w = inr c ->
     os_getenv w "ENTRA_TENANT_ID" = Some (tenant_id c) /\
     os_getenv w "ENTRA_CLIENT_ID" = Some (client_id c) /\
     os_getenv w "ENTRA_CLIENT_SECRET" = Some (client_secret c) /\
     str_truthy (tenant_id c) = true /\
     str_truthy (client_id c) = true /\
     str_truthy (client_secret c) = true /\
     base_url c = "https://graph.microsoft.com/v1.0" /\
     _token c = None)
  /\
  (forall (w : World) (name : string),
     In name ["ENTRA_TENANT_ID"; "ENTRA_CLIENT_ID"; "ENTRA_CLIENT_SECRET"] ->
     env_truthy (os_getenv w name) = false ->
     EntraClient_init w = inl (ValueError MISSING_VARIABLES))
  /\
  (forall (p p' : proc) (c : EntraClient),
     get_entra_client p = (Return c, p') ->
     entra_client p' = Some c /\
     p_world p' = p_world p /\ p_trace p' = p_trace p /\
     forall w tr,
       get_entra_client {| entra_client := entra_client p'; p_world := w;
                           p_trace := tr |}
       = (Return c, {| entra_client := entra_client p'; p_world := w;
                       p_trace := tr |}))
  /\
  (forall (p p' : proc) (e : exn),
     get_entra_client p = (Raise e, p') -> p' = p /\ entra_client p = None).
Proof.
  split; [|split; [|split]].
  - intros w c. unfold EntraClient_init.
    destruct (env_truthy (os_getenv w "ENTRA_TENANT_ID")) eqn:H1;
      [|discriminate].
    destruct (env_truthy (os_getenv w "ENTRA_CLIENT_ID")) eqn:H2;
      [|discriminate].
    destruct (env_truthy (os_getenv w "ENTRA_CLIENT_SECRET")) eqn:H3;
      [|discriminate].
    simpl.
    destruct (ClientSecretCredential _ _ _) as [e|cred]; [discriminate|].
    intros H. inversion H; subst; simpl.
    destruct (env_truthy_some _ H1) as (? & ?).
    destruct (env_truthy_some _ H2) as (? & ?).
    destruct (env_truthy_some _ H3) as (? & ?).
    repeat split; assumption.
  - intros w name Hin Hf. apply init_missing.
    destruct Hin as [<-|[<-|[<-|[]]]]; rewrite Hf;
      rewrite ?andb_false_r; reflexivity.
  - intros p p' c. unfold get_entra_client.
    destruct (entra_client p) as [c0|] eqn:Hc.
    + intros H. inversion H; subst. rewrite Hc. repeat split.
    + destruct (EntraClient_init (p_world p)) as [e|c0]; [discriminate|].
      intros H. inversion H; subst. simpl. repeat split.
  - intros p p' e. unfold get_entra_client.
    destruct (entra_client p) as [c0|]; [discriminate|].
    destruct (EntraClient_init (p_world p)) as [e0|c0]; [|discriminate].
    intros H. inversion H; subst. split; reflexivity.
Qed.

(** With no client built yet and one of the three variables unset or
    empty, every tool returns its error string with the message of the
    [ValueError], makes no remote call and leaves the process as it was
    (no client is kept, so the next call reads the environment again). *)
Theorem tools_report_missing_configuration
    (fuel : nat) (query : string) (max_results : Z) (identifier : string)
    (p : proc) :
  entra_client p = None ->
  env_truthy (os_getenv (p_world p) "ENTRA_TENANT_ID")
  && env_truthy (os_getenv (p_world p) "ENTRA_CLIENT_ID")
  && env_truthy (os_getenv (p_world p) "ENTRA_CLIENT_SECRET") = false ->
  search_entra_users fuel query max_results p
    = (Return ("Error searching users: " ++ MISSING_VARIABLES), p)
  /\ search_entra_groups fuel query max_results p
     = (Return ("Error searching groups: " ++ MISSING_VARIABLES), p)
  /\ get_user_group_membership fuel identifier p
     = (Return ("Error getting user membership: " ++ MISSING_VARIABLES), p)
  /\ get_group_members_tool identifier max_results p
     = (Return ("Error getting group members: " ++ MISSING_VARIABLES), p).
Proof.
  intros Hc Henv.
  assert (Hg : get_entra_client p = (Raise (ValueError MISSING_VARIABLES), p)).
  { unfold get_entra_client. now rewrite Hc, (init_missing _ Henv). }
  unfold search_entra_users, search_entra_groups, get_user_group_membership,
    get_group_members_tool.
  repeat split;
    (rewrite (try_except_raise _ _ p p (ValueError MISSING_VARIABLES));
     [reflexivity | now apply bind_raise]).
Qed.

End Construction.

Lemma client_construction_witness :
  @EntraClient_init unconfigured O = inl (ValueError MISSING_VARIABLES).
Proof.
  exact (proj1 (proj2 (@client_construction unconfigured)) O "ENTRA_CLIENT_SECRET"
           ltac:(simpl; auto) eq_refl).
Defined.

Lemma tools_report_missing_configuration_witness :
  @get_user_group_membership unconfigured 1 "jane@co.com"
     (@Build_proc unconfigured None O [])
  = (Return ("Error getting user membership: " ++ MISSING_VARIABLES),
     @Build_proc unconfigured None O []).
Proof.
  exact (proj1 (proj2 (proj2
           (@tools_report_missing_configuration unconfigured 1 "x" 10 "jane@co.com"
              (@Build_proc unconfigured None O []) eq_refl eq_refl)))).
Defined.

(** The [$search] request is served three pages with a count hint of 9:
    the five users asked for come back with that hint as total count, and
    no [$filter] request is made. *)
Lemma search_total_count_is_hint_witness :
  exists st',
    @search_users (scripted three_pages) 2 "x" 5 (fresh_state three_pages)
    = (Return [("users", PList [record "a1"; record "a2"; record "a3";
                                record "b1"; record "b2"]);
               ("total_count", PInt 9)], st')
    /\ map (fun ev => match ev with
                      | EvGet _ _ (Some ((k, _) :: _)) _ => k
                      | _ => EmptyString
                      end)
           (gets (trace st'))
       = ["$search"; EmptyString].
Proof.
  destruct (proj1 (@search_total_count_is_hint (scripted three_pages)) 2%nat "x" 5%Z
              (fresh_state three_pages) _ _ eq_refl)
    as (first & st1 & users & Hfirst & Hpage & Hrun).
  assert (Hc : count_hint first = PInt 9).
  { vm_compute in Hfirst. inversion Hfirst; subst. reflexivity. }
  assert (Hu : users = [record "a1"; record "a2"; record "a3";
                        record "b1"; record "b2"]).
  { vm_compute in Hpage. inversion Hpage; subst. reflexivity. }
  rewrite Hc, Hu in Hrun.
  exists (snd (@search_users (scripted three_pages) 2 "x" 5 (fresh_state three_pages))).
  split; [rewrite Hrun; reflexivity | vm_compute; reflexivity].
Defined.

(* ================================================================== *)
(** * When no token can be obtained *)

Section LockedOutProofs.
Context {R : Runtime}.
Variable e : exn.
Hypothesis credential_fails :
  forall cred scope w, fst (credential_get_token cred scope w) = inl e.

Lemma locked_bind_return {A B : Type} (m : M mstate A) (k : A -> M mstate B)
    (a : A) (r : outcome B) :
  locked_out m (Return a) -> locked_out (k a) r -> locked_out (bind m k) r.
Proof.
  intros Hm Hk st Ht. destruct (Hm st Ht) as (Hr & Hs & evs & He & Hg).
  unfold bind. destruct (m st) as [o st1]; simpl in *. subst o.
  assert (Ht1 : token_truthy (_token (self st1)) = false) by (now rewrite Hs).
  destruct (Hk st1 Ht1) as (Hr2 & Hs2 & evs2 & He2 & Hg2).
  split; [exact Hr2|]. split; [congruence|].
  exists (evs ++ evs2)%list. split; [now rewrite He2, He, app_assoc|].
  unfold gets in *. now rewrite filter_app, Hg, Hg2.
Qed.

Lemma locked_bind_raise {A B : Type} (m : M mstate A) (k : A -> M mstate B)
    (e' : exn) :
  locked_out m (Raise e') -> locked_out (bind m k) (Raise e').
Proof.
  intros Hm st Ht. destruct (Hm st Ht) as (Hr & Hs & evs & He & Hg).
  unfold bind. destruct (m st) as [o st1]; simpl in *. subst o. simpl.
  split; [reflexivity|]. split; [exact Hs|]. now exists evs.
Qed.

Lemma locked_try_except_raise {A : Type} (m : M mstate A) (h : exn -> M mstate A)
    (e' : exn) (r : outcome A) :
  locked_out m (Raise e') -> locked_out (h e') r -> locked_out (try_except m h) r.
Proof.
  intros Hm Hh st Ht. destruct (Hm st Ht) as (Hr & Hs & evs & He & Hg).
  unfold try_except. destruct (m st) as [o st1]; simpl in *. subst o.
  assert (Ht1 : token_truthy (_token (self st1)) = false) by (now rewrite Hs).
  destruct (Hh st1 Ht1) as (Hr2 & Hs2 & evs2 & He2 & Hg2).
  split; [exact Hr2|]. split; [congruence|].
  exists (evs ++ evs2)%list. split; [now rewrite He2, He, app_assoc|].
  unfold gets in *. now rewrite filter_app, Hg, Hg2.
Qed.

Lemma locked_ret {A : Type} (a : A) : locked_out (ret a) (Return a).
Proof.
  intros st _. split; [reflexivity|]. split; [reflexivity|].
  exists []. now rewrite app_nil_r.
Qed.

Lemma locked_get_token : locked_out _get_token (Raise e).
Proof.
  intros st Ht. unfold _get_token, bind, read_token. rewrite Ht. simpl.
  unfold call_get_token.
  pose proof (credential_fails (credential (self st))
                "https://graph.microsoft.com/.default" (world st)) as Hc.
  destruct (credential_get_token (credential (self st))
              "https://graph.microsoft.com/.default" (world st)) as [r w].
  simpl in Hc. subst r. simpl.
  split; [reflexivity|]. split; [reflexivity|]. eexists. split; reflexivity.
Qed.

Lemma locked_make_request endpoint params extra_headers :
  locked_out (_make_request endpoint params extra_headers) (Raise e).
Proof. unfold _make_request. apply locked_bind_raise, locked_get_token. Qed.

Lemma locked_collect_paged fuel endpoint params hdrs limit :
  locked_out (_collect_paged fuel endpoint params hdrs limit) (Raise e).
Proof. unfold _collect_paged. apply locked_bind_raise, locked_make_request. Qed.

Lemma locked_search_users fuel query limit :
  locked_out (search_users fuel query limit) (Raise e).
Proof.
  unfold search_users. apply locked_try_except_raise with (e' := e);
    apply locked_bind_raise, locked_collect_paged.
Qed.

Lemma locked_search_groups fuel query limit :
  locked_out (search_groups fuel query limit) (Raise e).
Proof.
  unfold search_groups. apply locked_try_except_raise with (e' := e);
    apply locked_bind_raise, locked_collect_paged.
Qed.

Lemma locked_resolve_user_id identifier :
  locked_out (_resolve_user_id identifier) (Return PNone).
Proof.
  unfold _resolve_user_id. apply locked_try_except_raise with (e' := e).
  - apply locked_bind_raise, locked_make_request.
  - apply locked_bind_return with (a := None); [|apply locked_ret].
    apply locked_try_except_raise with (e' := e); [|apply locked_ret].
    apply locked_bind_raise, locked_make_request.
Qed.

Lemma locked_get_user_membership fuel identifier limit :
  locked_out (get_user_membership fuel identifier limit) (Raise e).
Proof.
  unfold get_user_membership.
  apply locked_bind_return with (a := PNone); [apply locked_resolve_user_id|].
  apply locked_bind_raise, locked_collect_paged.
Qed.

Lemma locked_get_group_members group_id limit :
  locked_out (get_group_members group_id limit) (Raise e).
Proof. unfold get_group_members. apply locked_bind_raise, locked_make_request. Qed.

(** When the credential provider fails, no method of the client sends an
    HTTP request, and the client keeps holding no token (every call asks
    the provider again). The searches, the membership listing and the
    member listing raise the provider's exception; identifier resolution
    swallows it and returns [None], so that [get_user_membership] goes on
    with the raw identifier and fails at its first page. *)
Theorem no_request_without_token :
  (forall fuel endpoint params hdrs limit,
     locked_out (_collect_paged fuel endpoint params hdrs limit) (Raise e))
  /\ (forall fuel query limit, locked_out (search_users fuel query limit) (Raise e))
  /\ (forall fuel query limit, locked_out (search_groups fuel query limit) (Raise e))
  /\ (forall identifier, locked_out (_resolve_user_id identifier) (Return PNone))
  /\ (forall fuel identifier limit,
        locked_out (get_user_membership fuel identifier limit) (Raise e))
  /\ (forall group_id limit,
        locked_out (get_group_members group_id limit) (Raise e)).
Proof.
  split; [exact locked_collect_paged|].
  split; [exact locked_search_users|].
  split; [exact locked_search_groups|].
  split; [exact locked_resolve_user_id|].
  split; [exact locked_get_user_membership | exact locked_get_group_members].
Qed.

Lemma tool_locked_of_shape {A : Type} (prefix : string) (m : M mstate A)
    (body : A -> M proc string) :
  locked_out m (Raise e) ->
  tool_locked_out
    (try_except (client <- get_entra_client ;; a <- on_client client m ;; body a)
                (fun e' => ret (prefix ++ exn_str e')))
    (prefix ++ exn_str e).
Proof.
  intros Hm p c Hc Ht.
  destruct (Hm {| self := c; world := p_world p; trace := p_trace p |} Ht)
    as (Hr & Hs & evs & He & Hg).
  unfold try_except, bind, get_entra_client, on_client. rewrite Hc.
  destruct (m {| self := c; world := p_world p; trace := p_trace p |})
    as [o st1]; simpl in *. subst o. simpl.
  split; [reflexivity|]. split; [now rewrite Hs|]. now exists evs.
Qed.

(** At the tool boundary: with a client that holds no token and a
    credential provider that fails, each tool returns its error string
    with the provider's message and sends no HTTP request. *)
Theorem tools_report_credential_failure
    (fuel : nat) (query : string) (max_results : Z) (identifier : string) :
  tool_locked_out (search_entra_users fuel query max_results)
    ("Error searching users: " ++ exn_str e)
  /\ tool_locked_out (search_entra_groups fuel query max_results)
       ("Error searching groups: " ++ exn_str e)
  /\ tool_locked_out (get_user_group_membership fuel identifier)
       ("Error getting user membership: " ++ exn_str e)
  /\ tool_locked_out (get_group_members_tool identifier max_results)
       ("Error getting group members: " ++ exn_str e).
Proof.
  split; [|split; [|split]].
  - apply (tool_locked_of_shape "Error searching users: "), locked_search_users.
  - apply (tool_locked_of_shape "Error searching groups: "), locked_search_groups.
  - apply (tool_locked_of_shape "Error getting user membership: "),
      locked_get_user_membership.
  - apply (tool_locked_of_shape "Error getting group members: "),
      locked_get_group_members.
Qed.

End LockedOutProofs.

Lemma no_request_without_token_witness :
  let st0 := @Build_mstate locked
               (@Build_EntraClient locked "tenant" "client" "secret" tt GRAPH None)
               O [] in
  fst (@_resolve_user_id locked "jane@co.com" st0) = Return PNone
  /\ fst (@get_user_membership locked 1 "jane@co.com" None st0) = Raise auth_failure
  /\ gets (trace (snd (@get_user_membership locked 1 "jane@co.com" None st0))) = [].
Proof.
  intros st0.
  destruct (@no_request_without_token locked auth_failure
              (fun _ _ _ => eq_refl)) as (_ & _ & _ & Hres & Hmem & _).
  destruct (Hres "jane@co.com" st0 eq_refl) as (H1 & _).
  destruct (Hmem 1%nat "jane@co.com" None st0 eq_refl) as (H2 & _ & evs & He & Hg).
  split; [exact H1|]. split; [exact H2|].
  rewrite He. exact Hg.
Defined.

Lemma tools_report_credential_failure_witness :
  fst (@search_entra_users locked 1 "john" 10
         (@Build_proc locked
            (Some (@Build_EntraClient locked "tenant" "client" "secret" tt GRAPH None))
            O []))
  = Return "Error searching users: invalid client secret".
Proof.
  exact (proj1 (proj1 (@tools_report_credential_failure locked auth_failure
                         (fun _ _ _ => eq_refl) 1 "john" 10 "x")
                  (@Build_proc locked
                     (Some (@Build_EntraClient locked "tenant" "client" "secret" tt
                              GRAPH None))
                     O [])
                  _ eq_refl eq_refl)).
Defined.

(* ================================================================== *)
(** * Do the tools return? *)

Section ToolsReturn.
Context {R : Runtime}.







End ToolsReturn.

Section NeverReturning.
Context {R : Runtime}.





End NeverReturning.



